(** * Accuracy assessment and area estimation for multi-class maps

    A shallow embedding of
    [multilc_accuracy_areaEstimation_uq_interactive.py]: the estimation
    engine, [calculate_weights], [convert_to_area_proportion],
    [calculate_accuracy_metrics], [calculate_error_adjusted_area] and
    [calculate_standard_error_and_ci], and the part of the form that feeds
    it, [setup_matrix_inputs], [run_analysis] and the table of
    [save_results].

    Numbers.  The program computes on [float64] values, numpy's and
    Python's.  Their arithmetic is a parameter of the embedding, an
    [arith]: a type of numbers with the operations and comparisons the
    program uses.  Two arithmetics are given.  [float64] is the binary64
    arithmetic of IEEE 754 itself, on the primitive floating-point numbers:
    it rounds, overflows and underflows as the program does, and the
    program is evaluated in it on sample inputs.  [exact] computes on real
    numbers extended with [+inf], [-inf] and [nan], without rounding.  A
    property of the program is proved for every arithmetic that obeys the
    laws it names ([nan_laws], [zero_laws], [unit_laws], [order_laws],
    [sum_laws]); each law holds of binary64 arithmetic, and none of them
    is an identity of the real numbers that rounding breaks.

    Exceptions.  An array access out of range raises an [IndexError], a
    local read before its assignment a [NameError], the square of a Python
    float that overflows an [OverflowError]; a computation that can raise
    returns an [option], [None] standing for the raised exception.  numpy
    scalars and arrays do not raise on a division by zero or an overflow,
    they return [inf] or [nan]. *)

From Stdlib Require Import PrimFloat.
From Stdlib Require SpecFloat FloatAxioms.
From Stdlib Require Import Reals Lra List Arith Lia Bool.
From Stdlib Require Import ZArith String DecimalString.
From Stdlib Require Import List.
Import ListNotations.

Open Scope R_scope.

(** ** Arithmetic *)

(** The numbers of the program and what it does with them: the literals
    [0], [1], [2], [0.95] and [np.nan], the four operations, [np.sqrt],
    [x ** 2], numpy's sum of the items of a one-dimensional array, the
    comparisons [==], [<] and [<=], and whether a number is finite (neither
    an infinity nor [nan]). *)
Record arith : Type := mkArith {
  num : Type;
  f_zero : num;
  f_one : num;
  f_two : num;
  f_095 : num;
  f_nan : num;
  f_add : num -> num -> num;
  f_sub : num -> num -> num;
  f_mul : num -> num -> num;
  f_div : num -> num -> num;
  f_sqrt : num -> num;
  f_pow2 : num -> num;
  f_sum : list num -> num;
  f_eqb : num -> num -> bool;
  f_ltb : num -> num -> bool;
  f_leb : num -> num -> bool;
  f_finite : num -> bool
}.

Declare Scope fl_scope.
Delimit Scope fl_scope with fl.
Bind Scope fl_scope with num.

Notation "x + y" := (f_add _ x y) : fl_scope.
Notation "x - y" := (f_sub _ x y) : fl_scope.
Notation "x * y" := (f_mul _ x y) : fl_scope.
Notation "x / y" := (f_div _ x y) : fl_scope.
Notation "0" := (f_zero _) : fl_scope.
Notation "1" := (f_one _) : fl_scope.
Notation "2" := (f_two _) : fl_scope.

(** [x ** 2] on a numpy scalar *)
Definition fl_pow2 {A : arith} (x : num A) : num A := f_pow2 A x.

(** [np.sqrt] *)
Definition fl_sqrt {A : arith} (x : num A) : num A := f_sqrt A x.

(** [x != 0]: true on [nan] and on the infinities. *)
Definition fl_ne0 {A : arith} (x : num A) : bool := negb (f_eqb A x 0%fl).

(** [x > 1]: false on [nan]. *)
Definition fl_gt1 {A : arith} (x : num A) : bool := f_ltb A 1%fl x.

(** [x ** 2] on a Python float: an [OverflowError] when [x] is finite and
    its square is not. *)
Definition py_pow2 {A : arith} (x : num A) : option (num A) :=
  if f_finite A x && negb (f_finite A (fl_pow2 x)) then None
  else Some (fl_pow2 x).

(** *** Binary64 arithmetic

    The primitive floating-point numbers are the binary64 numbers of
    IEEE 754, their operations round to nearest, ties to even.  The square
    is the rounded product, which the square is wherever the product is a
    binary64 number.  The sum adds the items from the left, as numpy adds
    an array of fewer than 8 items; this arithmetic is used on the sample
    inputs only, of at most 6 classes. *)
Definition float64 : arith :=
  mkArith PrimFloat.float 0%float 1%float 2%float
    (PrimFloat.div 95%float 100%float) PrimFloat.nan
    PrimFloat.add PrimFloat.sub PrimFloat.mul PrimFloat.div PrimFloat.sqrt
    (fun x => PrimFloat.mul x x)
    (fun v => fold_left PrimFloat.add v 0%float)
    PrimFloat.eqb PrimFloat.ltb PrimFloat.leb PrimFloat.is_finite.

(** *** Exact arithmetic

    Real numbers and the special values of IEEE 754, which every operation
    treats as the standard does; nothing is rounded, and zero has no
    sign. *)
Inductive xreal : Type :=
| Fin (r : R)
| PInf
| NInf
| NaN.

(** The infinity that carries the sign of [r]; [nan] for [r = 0]. *)
Definition inf_of_sign (r : R) : xreal :=
  if Rlt_dec 0 r then PInf else if Rlt_dec r 0 then NInf else NaN.

Definition x_neg (x : xreal) : xreal :=
  match x with
  | Fin a => Fin (- a)
  | PInf => NInf
  | NInf => PInf
  | NaN => NaN
  end.

Definition x_add (x y : xreal) : xreal :=
  match x, y with
  | NaN, _ | _, NaN => NaN
  | Fin a, Fin b => Fin (a + b)
  | PInf, NInf | NInf, PInf => NaN
  | PInf, _ | _, PInf => PInf
  | NInf, _ | _, NInf => NInf
  end.

Definition x_sub (x y : xreal) : xreal := x_add x (x_neg y).

Definition x_mul (x y : xreal) : xreal :=
  match x, y with
  | NaN, _ | _, NaN => NaN
  | Fin a, Fin b => Fin (a * b)
  | Fin a, PInf | PInf, Fin a => inf_of_sign a
  | Fin a, NInf | NInf, Fin a => inf_of_sign (- a)
  | PInf, PInf | NInf, NInf => PInf
  | PInf, NInf | NInf, PInf => NInf
  end.

Definition x_div (x y : xreal) : xreal :=
  match x, y with
  | NaN, _ | _, NaN => NaN
  | Fin a, Fin b => if Req_dec_T b 0 then inf_of_sign a else Fin (a / b)
  | Fin _, (PInf | NInf) => Fin 0
  | PInf, Fin b => if Rlt_dec b 0 then NInf else PInf
  | NInf, Fin b => if Rlt_dec b 0 then PInf else NInf
  | (PInf | NInf), (PInf | NInf) => NaN
  end.

Definition x_sqrt (x : xreal) : xreal :=
  match x with
  | Fin a => if Rlt_dec a 0 then NaN else Fin (sqrt a)
  | PInf => PInf
  | NInf => NaN
  | NaN => NaN
  end.

Definition x_eqb (x y : xreal) : bool :=
  match x, y with
  | Fin a, Fin b => if Req_dec_T a b then true else false
  | PInf, PInf | NInf, NInf => true
  | _, _ => false
  end.

Definition x_ltb (x y : xreal) : bool :=
  match x, y with
  | Fin a, Fin b => if Rlt_dec a b then true else false
  | NInf, (Fin _ | PInf) | Fin _, PInf => true
  | _, _ => false
  end.

Definition x_leb (x y : xreal) : bool :=
  match x, y with
  | Fin a, Fin b => if Rle_dec a b then true else false
  | NaN, _ | _, NaN => false
  | NInf, _ | _, PInf => true
  | _, _ => false
  end.

Definition x_finite (x : xreal) : bool :=
  match x with
  | Fin _ => true
  | _ => false
  end.

Definition exact : arith :=
  mkArith xreal (Fin 0) (Fin 1) (Fin 2) (Fin (95 / 100)) NaN
    x_add x_sub x_mul x_div x_sqrt (fun x => x_mul x x)
    (fun v => fold_left x_add v (Fin 0))
    x_eqb x_ltb x_leb x_finite.

(** The arithmetic of an expression is read off the type of its numbers. *)
Canonical Structure exact.
#[warnings="-projection-no-head-constant,-redundant-canonical-projection"]
Canonical Structure float64.

(** *** The laws of the arithmetic

    What the proofs below use of an arithmetic.  Each law holds of
    binary64 arithmetic. *)

Section Laws.

Variable A : arith.

Local Abbreviation fl := (num A).
Local Abbreviation nan := (f_nan A).

(** [nan] is absorbing, differs from every number and is above none. *)
Record nan_laws : Prop := {
  add_nan_l : forall x : fl, (nan + x)%fl = nan;
  add_nan_r : forall x : fl, (x + nan)%fl = nan;
  sub_nan_l : forall x : fl, (nan - x)%fl = nan;
  sub_nan_r : forall x : fl, (x - nan)%fl = nan;
  mul_nan_l : forall x : fl, (nan * x)%fl = nan;
  mul_nan_r : forall x : fl, (x * nan)%fl = nan;
  div_nan_l : forall x : fl, (nan / x)%fl = nan;
  div_nan_r : forall x : fl, (x / nan)%fl = nan;
  sqrt_nan : fl_sqrt nan = nan;
  eqb_nan_l : forall x : fl, f_eqb A nan x = false;
  ltb_nan_r : forall x : fl, f_ltb A x nan = false
}.

(** Zeros.  A number [x] equal to zero ([x == 0]) is [0] or, in binary64,
    [-0]; the laws are stated with the comparison, so that they hold of
    both.  [x + 0 = x] holds of every binary64 number but [-0], and a sum
    is [-0] only when both its terms are. *)
Record zero_laws : Prop := {
  eqb_zero_zero : f_eqb A 0%fl 0%fl = true;
  add_zero_zero : (0 + 0)%fl = 0%fl :> fl;
  add_keeps_plain :
    forall x y : fl, (x + 0)%fl = x -> (x + y + 0)%fl = (x + y)%fl;
  add_zeros :
    forall x y : fl,
      f_eqb A x 0%fl = true -> f_eqb A y 0%fl = true ->
      f_eqb A (x + y)%fl 0%fl = true;
  mul_zero_l :
    forall x y : fl,
      f_eqb A x 0%fl = true ->
      f_eqb A (x * y)%fl 0%fl = true \/ (x * y)%fl = nan;
  zero_not_gt1 : forall x : fl, f_eqb A x 0%fl = true -> f_ltb A 1%fl x = false;
  div_zero_zero :
    forall x t : fl,
      f_eqb A x 0%fl = true -> f_eqb A t 0%fl = true -> (x / t)%fl = nan;
  div_by_zero :
    forall x t : fl, f_eqb A t 0%fl = true -> f_finite A (x / t)%fl = false
}.


(** The order on numbers that are not negative: rounding is monotone, and
    [0] and [1] are binary64 numbers. *)
Record order_laws : Prop := {
  leb_zero_zero : f_leb A 0%fl 0%fl = true;
  leb_trans :
    forall x y z : fl,
      f_leb A x y = true -> f_leb A y z = true -> f_leb A x z = true;
  add_nonneg :
    forall s x : fl,
      f_leb A 0%fl s = true -> f_leb A 0%fl x = true ->
      f_leb A s (s + x)%fl = true /\ f_leb A x (s + x)%fl = true;
  leb_antisym_zero :
    forall x : fl,
      f_leb A 0%fl x = true -> f_leb A x 0%fl = true -> f_eqb A x 0%fl = true;
  leb_zero_eqb : forall x : fl, f_eqb A x 0%fl = true -> f_leb A x 0%fl = true;
  nonneg_ne0_pos :
    forall x : fl,
      f_leb A 0%fl x = true -> f_eqb A x 0%fl = false -> f_ltb A 0%fl x = true;
  div_in_unit :
    forall x t : fl,
      f_leb A 0%fl x = true -> f_finite A x = true ->
      f_leb A x t = true -> f_ltb A 0%fl t = true ->
      f_leb A 0%fl (x / t)%fl = true /\ f_leb A (x / t)%fl 1%fl = true
}.

(** numpy's sum, in whatever order it adds the items: a sum with an
    undefined item is undefined; a sum of zeros and undefined items is zero
    or undefined; a sum of zeros and one positive number is that number;
    and a sum of numbers that are not negative is not negative and not
    below any of them. *)
Record sum_laws : Prop := {
  sum_nan : forall v : list fl, In nan v -> f_sum A v = nan;
  sum_zeros :
    forall v : list fl,
      Forall (fun x => f_eqb A x 0%fl = true \/ x = nan) v ->
      f_eqb A (f_sum A v) 0%fl = true \/ f_sum A v = nan;
  sum_single :
    forall (w : fl) (k q : nat),
      f_ltb A 0%fl w = true -> (k < q)%nat ->
      f_sum A (map (fun j => if j =? k then w else 0%fl) (seq 0 q)) = w;
  sum_nonneg :
    forall v : list fl,
      Forall (fun x => f_leb A 0%fl x = true) v ->
      f_leb A 0%fl (f_sum A v) = true
      /\ (forall x, In x v -> f_leb A x (f_sum A v) = true)
}.

End Laws.
(** ** Exceptions *)

Definition bind {T U : Type} (m : option T) (k : T -> option U) : option U :=
  match m with
  | Some a => k a
  | None => None
  end.

Notation "x <- m ;; k" := (bind m (fun x => k))
  (at level 61, m at next level, right associativity).

(** A [for] loop over [l] whose body may raise. *)
Fixpoint for_each {T S : Type} (l : list T) (body : S -> T -> option S)
  (s : S) : option S :=
  match l with
  | [] => Some s
  | a :: l' => s' <- body s a ;; for_each l' body s'
  end.

(** ** Arrays *)

Section Program.

(** The arithmetic of the program. *)
Variable A : arith.

Local Abbreviation fl := (num A).
Local Abbreviation nan := (f_nan A).
Local Abbreviation vector := (list (num A)).

(** A two-dimensional array, as the list of its rows. *)
Local Abbreviation matrix := (list (list (num A))).

(** The arrays numpy can build: [r] rows of [c] cells each. *)
Definition shape (r c : nat) (m : matrix) : Prop :=
  length m = r /\ Forall (fun row => length row = c) m.

(** [range(n)] *)
Definition range (n : nat) : list nat := seq 0 n.

(** [v.sum()], [np.sum(v)]: numpy's sum of a one-dimensional array, which
    adds a short array from the left and a long one in blocks. *)
Definition np_sum (v : vector) : fl := f_sum A v.

(** [v[i]] *)
Definition at1 (v : vector) (i : nat) : option fl := nth_error v i.

(** [m[i, :]] *)
Definition row (m : matrix) (i : nat) : option vector := nth_error m i.

(** [m[i, j]] *)
Definition at2 (m : matrix) (i j : nat) : option fl :=
  r <- row m i ;; at1 r j.

(** [m.shape[1]]; a matrix without rows is taken to have no columns. *)
Definition ncols (m : matrix) : nat :=
  match m with
  | [] => 0
  | r :: _ => length r
  end.

(** The cells of index [j] of the rows of [m]. *)
Fixpoint cells (m : matrix) (j : nat) : option vector :=
  match m with
  | [] => Some []
  | r :: m' => x <- at1 r j ;; c <- cells m' j ;; Some (x :: c)
  end.

(** [m[:, j]] *)
Definition col (m : matrix) (j : nat) : option vector :=
  if j <? ncols m then cells m j else None.

(** [m[i, :] = r] *)
Fixpoint set_row (m : matrix) (i : nat) (r : vector) : option matrix :=
  match m, i with
  | [], _ => None
  | _ :: m', O => Some (r :: m')
  | r0 :: m', S i' => m'' <- set_row m' i' r ;; Some (r0 :: m'')
  end.

(** [np.zeros_like(m, dtype=np.float64)] *)
Definition zeros_like (m : matrix) : matrix :=
  map (map (fun _ => 0%fl)) m.

(** The diagonal of [m], from row index [i] on. *)
Fixpoint diag_from (i : nat) (m : matrix) : vector :=
  match m with
  | [] => []
  | r :: m' =>
      match nth_error r i with
      | Some x => x :: diag_from (S i) m'
      | None => diag_from (S i) m'
      end
  end.

(** [np.trace(m)] *)
Definition np_trace (m : matrix) : fl := np_sum (diag_from 0 m).

(** [m.sum(axis=0)]: numpy's sum of each column. *)
Definition sum_axis0 (m : matrix) : vector :=
  map (fun j => np_sum (map (fun r => nth j r nan) m)) (range (ncols m)).

(** ** WeightComputer *)

Definition calculate_weights (mapped_pixels : vector) : vector :=
  let total_pixels := np_sum mapped_pixels in
  let weights := map (fun x => (x / total_pixels)%fl) mapped_pixels in
  weights.

(** ** AreaProportionConverter *)

(** The body of the loop of [convert_to_area_proportion]: the conditional
    expression reads [weights[i]] only when the row total is not zero, and
    the scalar [np.nan] is broadcast over the row. *)
Definition convert_row (error_matrix : matrix) (weights : vector)
  (area_proportion_matrix : matrix) (i : nat) : option matrix :=
  r <- row error_matrix i ;;
  let row_total := np_sum r in
  v <- (if fl_ne0 row_total
        then w <- at1 weights i ;;
             Some (map (fun x => (w * (x / row_total))%fl) r)
        else Some (map (fun _ => nan) r)) ;;
  set_row area_proportion_matrix i v.

Definition convert_to_area_proportion (error_matrix : matrix)
  (weights : vector) : option matrix :=
  let area_proportion_matrix := zeros_like error_matrix in
  for_each (range (length error_matrix))
    (convert_row error_matrix weights) area_proportion_matrix.

(** ** AccuracyEstimator *)

(** The local variables of [calculate_accuracy_metrics] that outlive a
    round of its loops: the ten lists, [U_i] and [n_i_dot], which are
    unbound until the first loop has run once and keep their last value
    after it, and [variance_P_j], unbound until the second loop has
    assigned it. *)
Record locals : Type := mkLocals {
  user_accuracy : list fl;
  user_accuracy_se : list fl;
  user_accuracy_ci_lower : list fl;
  user_accuracy_ci_upper : list fl;
  user_accuracy_ci_value : list fl;
  producer_accuracy : list fl;
  producer_accuracy_se : list fl;
  producer_accuracy_ci_lower : list fl;
  producer_accuracy_ci_upper : list fl;
  producer_accuracy_ci_value : list fl;
  U_i : option fl;
  n_i_dot : option fl;
  variance_P_j : option fl
}.

Definition init_locals : locals :=
  mkLocals [] [] [] [] [] [] [] [] [] [] None None None.

(** One round of the user's-accuracy loop leaves [U] and [n] in [U_i] and
    [n_i_dot] and appends one value to each of the five user lists. *)
Definition append_user (s : locals) (U n se lo hi ci : fl) : locals :=
  mkLocals
    (user_accuracy s ++ [U]) (user_accuracy_se s ++ [se])
    (user_accuracy_ci_lower s ++ [lo]) (user_accuracy_ci_upper s ++ [hi])
    (user_accuracy_ci_value s ++ [ci])
    (producer_accuracy s) (producer_accuracy_se s)
    (producer_accuracy_ci_lower s) (producer_accuracy_ci_upper s)
    (producer_accuracy_ci_value s)
    (Some U) (Some n) (variance_P_j s).

(** One round of the producer's-accuracy loop appends one value to each of
    the five producer lists; [v] is the value [variance_P_j] has after the
    round. *)
Definition append_producer (s : locals) (v : option fl) (P se lo hi ci : fl)
  : locals :=
  mkLocals
    (user_accuracy s) (user_accuracy_se s)
    (user_accuracy_ci_lower s) (user_accuracy_ci_upper s)
    (user_accuracy_ci_value s)
    (producer_accuracy s ++ [P]) (producer_accuracy_se s ++ [se])
    (producer_accuracy_ci_lower s ++ [lo])
    (producer_accuracy_ci_upper s ++ [hi])
    (producer_accuracy_ci_value s ++ [ci])
    (U_i s) (n_i_dot s) v.

(** The dictionary [calculate_accuracy_metrics] returns, and with it the
    local [overall_accuracy_variance], which the dictionary does not hold
    ([m_overall_accuracy_variance]). *)
Record accuracy_metrics : Type := mkMetrics {
  m_user_accuracy : list fl;
  m_user_accuracy_se : list fl;
  m_user_accuracy_ci_lower : list fl;
  m_user_accuracy_ci_upper : list fl;
  m_user_accuracy_ci_value : list fl;
  m_producer_accuracy : list fl;
  m_producer_accuracy_se : list fl;
  m_producer_accuracy_ci_lower : list fl;
  m_producer_accuracy_ci_upper : list fl;
  m_producer_accuracy_ci_value : list fl;
  m_overall_accuracy : fl;
  m_overall_accuracy_variance : fl;
  m_overall_accuracy_se : fl;
  m_overall_accuracy_ci_lower : fl;
  m_overall_accuracy_ci_upper : fl;
  m_overall_accuracy_ci_value : fl
}.

(** The body of [for i in range(q)], user's accuracy. *)
Definition user_body (area_proportion_matrix error_matrix : matrix)
  (z_score : fl) (s : locals) (i : nat) : option locals :=
  p_ii <- at2 area_proportion_matrix i i ;;
  r <- row area_proportion_matrix i ;;
  let p_i_dot := np_sum r in
  let U := if fl_ne0 p_i_dot then (p_ii / p_i_dot)%fl else nan in
  er <- row error_matrix i ;;
  let n := np_sum er in
  if fl_gt1 n then
    let variance_U_i := (U * (1 - U) / (n - 1))%fl in
    let se_U_i := fl_sqrt variance_U_i in
    let ci_lower := (U - z_score * se_U_i)%fl in
    let ci_upper := (U + z_score * se_U_i)%fl in
    Some (append_user s U n se_U_i ci_lower ci_upper (z_score * se_U_i)%fl)
  else
    Some (append_user s U n nan nan nan nan).

(** The item of the generator inside the producer's-accuracy variance,
    [... for i in range(q) if i != j]; [n] is the value of [n_i_dot]. *)
Definition producer_item (error_matrix : matrix) (j : nat) (n : fl)
  (i : nat) : option (option fl) :=
  if i =? j then Some None
  else
    e <- at2 error_matrix i j ;;
    Some (Some ((e / n) * (1 - (e / n)) / (n - 1))%fl).

(** Python's builtin [sum] over a generator: an item raises ([None]), is
    filtered out ([Some None]) or is added, from the left, to the integer
    [0] the sum starts from. *)
Fixpoint sum_gen {T : Type} (l : list T) (item : T -> option (option fl))
  (acc : fl) : option fl :=
  match l with
  | [] => Some acc
  | a :: l' =>
      y <- item a ;;
      sum_gen l' item (match y with Some x => (acc + x)%fl | None => acc end)
  end.

(** The body of [for j in range(q)], producer's accuracy.  [U_i] and
    [n_i_dot] are read from the locals the first loop left. *)
Definition producer_body (area_proportion_matrix error_matrix : matrix)
  (q : nat) (z_score : fl) (s : locals) (j : nat) : option locals :=
  p_jj <- at2 area_proportion_matrix j j ;;
  c <- col area_proportion_matrix j ;;
  let p_dot_j := np_sum c in
  let P_j := if fl_ne0 p_dot_j then (p_jj / p_dot_j)%fl else nan in
  ec <- col error_matrix j ;;
  let n_dot_j := np_sum ec in
  if fl_gt1 n_dot_j then
    U <- U_i s ;;
    n <- n_i_dot s ;;
    sm <- sum_gen (range q) (producer_item error_matrix j n) 0 ;;
    let variance :=
      ((1 / fl_pow2 n_dot_j) *
       ((fl_pow2 n_dot_j * fl_pow2 (1 - P_j) * U * (1 - U)) / (n - 1)
        + fl_pow2 P_j * sm))%fl in
    let se_P_j := fl_sqrt variance in
    let ci_lower := (P_j - z_score * se_P_j)%fl in
    let ci_upper := (P_j + z_score * se_P_j)%fl in
    Some (append_producer s (Some variance) P_j se_P_j ci_lower ci_upper
            (z_score * se_P_j)%fl)
  else
    Some (append_producer s (variance_P_j s) P_j nan nan nan nan).

(** The item of the generator of the overall-accuracy variance,
    [... for i in range(q) if error_matrix[i, :].sum() > 1]. *)
Definition overall_item (error_matrix : matrix) (weights : vector)
  (user_acc : list fl) (i : nat) : option (option fl) :=
  er <- row error_matrix i ;;
  if fl_gt1 (np_sum er) then
    w <- at1 weights i ;;
    U <- at1 user_acc i ;;
    Some (Some (fl_pow2 w * U * (1 - U) / (np_sum er - 1))%fl)
  else Some None.

Section Engine.

(** [scipy.stats.norm.ppf], the quantile function of the standard normal
    distribution. *)
Variable norm_ppf : fl -> fl.

Definition z_score_of (confidence_level : fl) : fl :=
  norm_ppf (1 - (1 - confidence_level) / 2)%fl.

Definition calculate_accuracy_metrics
  (area_proportion_matrix error_matrix : matrix) (weights : vector)
  (confidence_level : fl) : option accuracy_metrics :=
  let q := length area_proportion_matrix in
  let z_score := z_score_of confidence_level in
  s1 <- for_each (range q)
          (user_body area_proportion_matrix error_matrix z_score)
          init_locals ;;
  s2 <- for_each (range q)
          (producer_body area_proportion_matrix error_matrix q z_score)
          s1 ;;
  let overall_accuracy := np_trace area_proportion_matrix in
  overall_accuracy_variance <-
    sum_gen (range q)
      (overall_item error_matrix weights (user_accuracy s2)) 0 ;;
  let overall_accuracy_se := fl_sqrt overall_accuracy_variance in
  Some (mkMetrics
          (user_accuracy s2) (user_accuracy_se s2)
          (user_accuracy_ci_lower s2) (user_accuracy_ci_upper s2)
          (user_accuracy_ci_value s2)
          (producer_accuracy s2) (producer_accuracy_se s2)
          (producer_accuracy_ci_lower s2) (producer_accuracy_ci_upper s2)
          (producer_accuracy_ci_value s2)
          overall_accuracy
          overall_accuracy_variance
          overall_accuracy_se
          (overall_accuracy - z_score * overall_accuracy_se)%fl
          (overall_accuracy + z_score * overall_accuracy_se)%fl
          (z_score * overall_accuracy_se)%fl).

End Engine.

(** ** AreaEstimator *)

Definition calculate_error_adjusted_area (area_proportion_matrix : matrix)
  (total_area : fl) : vector :=
  let adjusted_areas :=
    map (fun s => (total_area * s)%fl) (sum_axis0 area_proportion_matrix) in
  adjusted_areas.

(** ** AreaUncertaintyEstimator *)

(** The body of the inner loop [for i in range(q)]: the state is
    [se_j_squared]. *)
Definition se_body (error_matrix : matrix) (weights : vector) (j : nat)
  (se_j_squared : fl) (i : nat) : option fl :=
  n_ij <- at2 error_matrix i j ;;
  r <- row error_matrix i ;;
  let n := np_sum r in
  if fl_gt1 n then
    w <- at1 weights i ;;
    Some (se_j_squared
          + fl_pow2 w * (n_ij / n) * (1 - n_ij / n) / (n - 1))%fl
  else Some se_j_squared.

(** The body of the outer loop [for j in range(q)]: the state is the list
    [standard_errors]. *)
Definition se_outer_body (error_matrix : matrix) (weights : vector)
  (q : nat) (standard_errors : list fl) (j : nat) : option (list fl) :=
  se_j_squared <- for_each (range q) (se_body error_matrix weights j) 0%fl ;;
  Some (standard_errors ++ [fl_sqrt se_j_squared]).

(** A list comprehension whose items may raise. *)
Fixpoint comprehension {T U : Type} (l : list T) (item : T -> option U)
  : option (list U) :=
  match l with
  | [] => Some []
  | a :: l' => x <- item a ;; xs <- comprehension l' item ;; Some (x :: xs)
  end.

(** The dictionary [calculate_standard_error_and_ci] returns. *)
Record area_uncertainty : Type := mkUncertainty {
  standard_errors : list fl;
  confidence_intervals : list (fl * fl)
}.

Section AreaUncertainty.

Variable norm_ppf : fl -> fl.

Definition calculate_standard_error_and_ci (error_matrix : matrix)
  (weights : vector) (area_adjusted_estimates : vector) (total_area : fl)
  (confidence_level : fl) : option area_uncertainty :=
  let q := length error_matrix in
  standard_errors <-
    for_each (range q) (se_outer_body error_matrix weights q) [] ;;
  let area_standard_errors :=
    map (fun se_j => (total_area * se_j)%fl) standard_errors in
  let z_score := z_score_of norm_ppf confidence_level in
  confidence_intervals <-
    comprehension (range q)
      (fun j =>
         a <- at1 area_adjusted_estimates j ;;
         s <- at1 area_standard_errors j ;;
         Some ((a - z_score * s)%fl, (a + z_score * s)%fl)) ;;
  Some (mkUncertainty area_standard_errors confidence_intervals).

End AreaUncertainty.

(** ** The formulas of the specification

    The quantities the specification names, written as it writes them, over
    total accessors: a cell out of range reads as [nan]. *)

(** [m[i][j]] *)
Definition cell (m : matrix) (i j : nat) : fl := nth j (nth i m []) nan.

(** [rowSum(m[i])], the row sample size [n_i] when [m] is the error
    matrix. *)
Definition row_total (m : matrix) (i : nat) : fl := np_sum (nth i m []).

(** Column [j] of [m] and its sum, [n_{.j}] for the error matrix. *)
Definition column (m : matrix) (j : nat) : vector :=
  map (fun r => nth j r nan) m.

Definition col_total (m : matrix) (j : nat) : fl := np_sum (column m j).

(** The sum of [f i] over the indices [i] of [l], added from the left to
    0, as Python's [sum] and a loop of [+=] add. *)
Definition big_sum (l : list nat) (f : nat -> fl) : fl :=
  fold_left (f_add A) (map f l) 0%fl.

(** The classes other than [j]. *)
Definition others (q j : nat) : list nat :=
  filter (fun i => negb (i =? j)) (range q).

(** The classes whose row sample size exceeds 1. *)
Definition sampled (error_matrix : matrix) (q : nat) : list nat :=
  filter (fun i => fl_gt1 (row_total error_matrix i)) (range q).

(** User's accuracy [U_i = areaProp[i][i] / sum_j areaProp[i][j]],
    undefined if the denominator is 0. *)
Definition spec_U (areaProp : matrix) (i : nat) : fl :=
  if fl_ne0 (row_total areaProp i)
  then (cell areaProp i i / row_total areaProp i)%fl
  else nan.

(** Producer's accuracy [P_j = areaProp[j][j] / sum_i areaProp[i][j]],
    undefined if the denominator is 0. *)
Definition spec_P (areaProp : matrix) (j : nat) : fl :=
  if fl_ne0 (col_total areaProp j)
  then (cell areaProp j j / col_total areaProp j)%fl
  else nan.

(** The standard error of [U_i]: the square root of
    [U_i(1-U_i)/(n_i - 1)] if [n_i > 1], undefined otherwise. *)
Definition spec_se_U (areaProp error_matrix : matrix) (i : nat) : fl :=
  let U := spec_U areaProp i in
  let n := row_total error_matrix i in
  if fl_gt1 n then fl_sqrt (U * (1 - U) / (n - 1))%fl else nan.

(** The variance of [P_j],
    [(1/n_{.j}^2) * [ n_{.j}^2 (1-P_j)^2 U(1-U)/(n-1)
                      + P_j^2 * sum_{i<>j} (n_ij/N i)(1 - n_ij/N i)/(N i - 1) ]],
    where [U] and [n] are those of class [q-1], and [N i] is the row sample
    size used for the contributing row [i]. *)
Definition var_P (areaProp error_matrix : matrix) (q : nat)
  (N : nat -> fl) (j : nat) : fl :=
  let n_dot_j := col_total error_matrix j in
  let P_j := spec_P areaProp j in
  let U := spec_U areaProp (q - 1) in
  let n := row_total error_matrix (q - 1) in
  ((1 / fl_pow2 n_dot_j) *
   ((fl_pow2 n_dot_j * fl_pow2 (1 - P_j) * U * (1 - U)) / (n - 1)
    + fl_pow2 P_j *
      big_sum (others q j)
        (fun i =>
           (cell error_matrix i j / N i)
           * (1 - cell error_matrix i j / N i) / (N i - 1))))%fl.

(** [var_P] with the row total of the contributing row [i] inside the
    sum. *)
Definition var_P_row_totals (areaProp error_matrix : matrix) (q j : nat)
  : fl :=
  var_P areaProp error_matrix q (row_total error_matrix) j.

(** [var_P] with the row total of the last class inside the sum too. *)
Definition var_P_last_total (areaProp error_matrix : matrix) (q j : nat)
  : fl :=
  var_P areaProp error_matrix q
    (fun _ => row_total error_matrix (q - 1)) j.

(** Overall accuracy: the trace of the area-proportion matrix, numpy's
    sum of its diagonal. *)
Definition spec_overall (areaProp : matrix) (q : nat) : fl :=
  np_sum (map (fun i => cell areaProp i i) (range q)).

(** The variance of the overall accuracy,
    [sum_i weight[i]^2 * U_i(1-U_i)/(n_i - 1)] over the classes with
    [n_i > 1]. *)
Definition spec_overall_variance (areaProp error_matrix : matrix)
  (weights : vector) (q : nat) : fl :=
  big_sum (sampled error_matrix q)
    (fun i =>
       fl_pow2 (nth i weights nan) * spec_U areaProp i
       * (1 - spec_U areaProp i) / (row_total error_matrix i - 1))%fl.

(** The term of row [i] in the squared standard error of the area
    proportion of class [j]. *)
Definition se_term (error_matrix : matrix) (weights : vector) (j i : nat)
  : fl :=
  let n_ij := cell error_matrix i j in
  let n_i := row_total error_matrix i in
  (fl_pow2 (nth i weights nan) * (n_ij / n_i) * (1 - n_ij / n_i)
   / (n_i - 1))%fl.

(** [SE_prop[j]], summed over the rows with [n_i > 1]. *)
Definition spec_se_prop (error_matrix : matrix) (weights : vector)
  (q j : nat) : fl :=
  fl_sqrt (big_sum (sampled error_matrix q) (se_term error_matrix weights j)).

(** [SE_prop[j]], summed over all rows, a row with [n_i <= 1]
    contributing 0. *)
Definition spec_se_prop_zero (error_matrix : matrix) (weights : vector)
  (q j : nat) : fl :=
  fl_sqrt
    (big_sum (range q)
       (fun i =>
          if fl_gt1 (row_total error_matrix i)
          then se_term error_matrix weights j i
          else 0%fl)).

(** ** What the loops compute

    The values the loops of the program are proved to build, in closed
    form. *)

(** Row [i] of the matrix [convert_to_area_proportion] builds. *)
Definition area_row (error_matrix : matrix) (weights : vector) (i : nat)
  : vector :=
  let r := nth i error_matrix [] in
  let row_total := np_sum r in
  if fl_ne0 row_total
  then map (fun x => (nth i weights nan * (x / row_total))%fl) r
  else map (fun _ => nan) r.

Definition area_matrix (error_matrix : matrix) (weights : vector) : matrix :=
  map (area_row error_matrix weights) (range (length error_matrix)).

(** The standard error of [P_j] the program reports: the square root of
    [var_P_last_total] if [n_{.j} > 1], undefined otherwise. *)
Definition spec_se_P (areaProp error_matrix : matrix) (q j : nat) : fl :=
  if fl_gt1 (col_total error_matrix j)
  then fl_sqrt (var_P_last_total areaProp error_matrix q j)
  else nan.

(** The value a local has after [k] rounds of the user's-accuracy loop:
    unbound before the first round, the value of class [k-1] after it. *)
Definition leftover (f : nat -> fl) (k : nat) : option fl :=
  match k with
  | O => None
  | S k' => Some (f k')
  end.

(** The bounds and the half-width of the interval of [U_i]: built from
    the standard error if [n_i > 1], undefined otherwise. *)
Definition spec_lower_U (z_score : fl) (areaProp error_matrix : matrix)
  (i : nat) : fl :=
  if fl_gt1 (row_total error_matrix i)
  then (spec_U areaProp i - z_score * spec_se_U areaProp error_matrix i)%fl
  else nan.

Definition spec_upper_U (z_score : fl) (areaProp error_matrix : matrix)
  (i : nat) : fl :=
  if fl_gt1 (row_total error_matrix i)
  then (spec_U areaProp i + z_score * spec_se_U areaProp error_matrix i)%fl
  else nan.

Definition spec_half_U (z_score : fl) (areaProp error_matrix : matrix)
  (i : nat) : fl :=
  if fl_gt1 (row_total error_matrix i)
  then (z_score * spec_se_U areaProp error_matrix i)%fl
  else nan.

(** The locals after [k] rounds of the user's-accuracy loop. *)
Definition user_state (z_score : fl) (areaProp error_matrix : matrix)
  (k : nat) : locals :=
  mkLocals
    (map (spec_U areaProp) (range k))
    (map (spec_se_U areaProp error_matrix) (range k))
    (map (spec_lower_U z_score areaProp error_matrix) (range k))
    (map (spec_upper_U z_score areaProp error_matrix) (range k))
    (map (spec_half_U z_score areaProp error_matrix) (range k))
    [] [] [] [] []
    (leftover (spec_U areaProp) k) (leftover (row_total error_matrix) k)
    None.

(** [variance_P_j] after [k] rounds of the producer's-accuracy loop: the
    variance of the last class [j < k] with [n_{.j} > 1]. *)
Fixpoint last_variance (areaProp error_matrix : matrix) (q k : nat)
  : option fl :=
  match k with
  | O => None
  | S k' =>
      if fl_gt1 (col_total error_matrix k')
      then Some (var_P_last_total areaProp error_matrix q k')
      else last_variance areaProp error_matrix q k'
  end.

(** The bounds and the half-width of the interval of [P_j]. *)
Definition spec_lower_P (z_score : fl) (areaProp error_matrix : matrix)
  (q j : nat) : fl :=
  if fl_gt1 (col_total error_matrix j)
  then (spec_P areaProp j - z_score * spec_se_P areaProp error_matrix q j)%fl
  else nan.

Definition spec_upper_P (z_score : fl) (areaProp error_matrix : matrix)
  (q j : nat) : fl :=
  if fl_gt1 (col_total error_matrix j)
  then (spec_P areaProp j + z_score * spec_se_P areaProp error_matrix q j)%fl
  else nan.

Definition spec_half_P (z_score : fl) (areaProp error_matrix : matrix)
  (q j : nat) : fl :=
  if fl_gt1 (col_total error_matrix j)
  then (z_score * spec_se_P areaProp error_matrix q j)%fl
  else nan.

(** The locals after the user's-accuracy loop and [k] rounds of the
    producer's-accuracy loop. *)
Definition producer_state (z_score : fl) (areaProp error_matrix : matrix)
  (q k : nat) : locals :=
  let s := user_state z_score areaProp error_matrix q in
  mkLocals
    (user_accuracy s) (user_accuracy_se s)
    (user_accuracy_ci_lower s) (user_accuracy_ci_upper s)
    (user_accuracy_ci_value s)
    (map (spec_P areaProp) (range k))
    (map (spec_se_P areaProp error_matrix q) (range k))
    (map (spec_lower_P z_score areaProp error_matrix q) (range k))
    (map (spec_upper_P z_score areaProp error_matrix q) (range k))
    (map (spec_half_P z_score areaProp error_matrix q) (range k))
    (U_i s) (n_i_dot s) (last_variance areaProp error_matrix q k).

(** The AccuracyResult for [q] classes: the formulas of the specification,
    the variance of the producer's accuracy being [var_P_last_total]. *)
Definition spec_metrics (z_score : fl) (areaProp error_matrix : matrix)
  (weights : vector) (q : nat) : accuracy_metrics :=
  let s := producer_state z_score areaProp error_matrix q q in
  let overall := spec_overall areaProp q in
  let variance := spec_overall_variance areaProp error_matrix weights q in
  let se := fl_sqrt variance in
  mkMetrics
    (user_accuracy s) (user_accuracy_se s)
    (user_accuracy_ci_lower s) (user_accuracy_ci_upper s)
    (user_accuracy_ci_value s)
    (producer_accuracy s) (producer_accuracy_se s)
    (producer_accuracy_ci_lower s) (producer_accuracy_ci_upper s)
    (producer_accuracy_ci_value s)
    overall variance se
    (overall - z_score * se)%fl (overall + z_score * se)%fl
    (z_score * se)%fl.

(** ** The form and the analysis it runs

    The interactive part of the program: the globals [setup_matrix_inputs]
    creates, [run_analysis], which reads them, and the table
    [save_results] writes.  An entry widget is modelled by the text it
    holds; Python's [int] and [float] on a text are parameters, [None]
    standing for the [ValueError] they raise.  What is drawn on the screen
    and written to disk is not modelled. *)

(** The globals [num_classes], [entry_pixel_size], [error_entries] and
    [mapped_pixel_entries]. *)
Record form : Type := mkForm {
  num_classes : Z;
  entry_pixel_size : string;
  error_entries : list (list string);
  mapped_pixel_entries : list string
}.

(** [range(n)] for a Python integer: empty when [n] is negative. *)
Definition zrange (n : Z) : list nat := range (Z.to_nat n).

(** The text of a new [tk.Entry]. *)
Definition new_entry : string := EmptyString.

(** The body of [for i in range(num_classes)] in [setup_matrix_inputs]:
    one row of entries and one entry of mapped pixels are appended. *)
Definition setup_row (n : Z) (st : list (list string) * list string)
  (i : nat) : list (list string) * list string :=
  let row_entries :=
    fold_left (fun row_entries j => row_entries ++ [new_entry]) (zrange n)
      [] in
  (fst st ++ [row_entries], snd st ++ [new_entry]).

Section Form.

(** Python's [int] and [float] on the text of an entry. *)
Variable int_of : string -> option Z.
Variable float_of : string -> option fl.

(** [scipy.stats.norm.ppf] *)
Variable norm_ppf : fl -> fl.

(** [setup_matrix_inputs]: [None] is the "Input Error" dialog of its
    [except ValueError] clause.  The calls that lay out the widgets are
    taken to succeed, as they do for a count that is not negative. *)
Definition setup_matrix_inputs (entry_classes : string) : option form :=
  n <- int_of entry_classes ;;
  let st := fold_left (setup_row n) (zrange n) ([], []) in
  Some (mkForm n new_entry (fst st) (snd st)).

(** [np.zeros(n)] and [np.zeros((n, m))]: a negative dimension raises. *)
Definition np_zeros (n : Z) : option vector :=
  if (n <? 0)%Z then None else Some (repeat 0%fl (Z.to_nat n)).

Definition np_zeros2 (n m : Z) : option matrix :=
  if ((n <? 0) || (m <? 0))%Z then None
  else Some (repeat (repeat 0%fl (Z.to_nat m)) (Z.to_nat n)).

(** [v[i] = x] *)
Fixpoint set1 (v : vector) (i : nat) (x : fl) : option vector :=
  match v, i with
  | [], _ => None
  | _ :: v', O => Some (x :: v')
  | y :: v', S i' => v'' <- set1 v' i' x ;; Some (y :: v'')
  end.

(** [m[i, j] = x] *)
Definition set2 (m : matrix) (i j : nat) (x : fl) : option matrix :=
  r <- row m i ;;
  r' <- set1 r j x ;;
  set_row m i r'.

(** The body of the inner loop of [run_analysis],
    [error_matrix[i, j] = float(error_entries[i][j].get())]. *)
Definition read_cell (f : form) (i : nat) (error_matrix : matrix) (j : nat)
  : option matrix :=
  es <- nth_error (error_entries f) i ;;
  e <- nth_error es j ;;
  x <- float_of e ;;
  set2 error_matrix i j x.

(** The body of the outer loop: the cells of row [i], then
    [mapped_pixels[i] = float(mapped_pixel_entries[i].get())]. *)
Definition read_row (f : form) (st : list (list fl) * list fl) (i : nat)
  : option (list (list fl) * list fl) :=
  error_matrix <- for_each (zrange (num_classes f)) (read_cell f i) (fst st) ;;
  e <- nth_error (mapped_pixel_entries f) i ;;
  x <- float_of e ;;
  mapped_pixels <- set1 (snd st) i x ;;
  Some (error_matrix, mapped_pixels).

(** The values [run_analysis] computes before it opens the results
    window. *)
Record analysis : Type := mkAnalysis {
  r_error_matrix : list (list fl);
  r_mapped_pixels : list fl;
  r_weights : list fl;
  r_area_proportion_matrix : list (list fl);
  r_total_area : fl;
  r_accuracy_metrics : accuracy_metrics;
  r_error_adjusted_area : list fl;
  r_area_se_and_ci : area_uncertainty;
  r_area_standard_errors : list fl;
  r_area_ci_values : list fl
}.

(** The literal [0.95]. *)
Definition level_95 : fl := f_095 A.

(** [run_analysis], up to the results window: [None] is the error dialog
    of its [except Exception] clause. *)
Definition run_analysis (f : form) : option analysis :=
  pixel_size <- float_of (entry_pixel_size f) ;;
  zeros2 <- np_zeros2 (num_classes f) (num_classes f) ;;
  zeros1 <- np_zeros (num_classes f) ;;
  st <- for_each (zrange (num_classes f)) (read_row f) (zeros2, zeros1) ;;
  let error_matrix := fst st in
  let mapped_pixels := snd st in
  let weights := calculate_weights mapped_pixels in
  area_proportion_matrix <- convert_to_area_proportion error_matrix weights ;;
  pixel_area <- py_pow2 pixel_size ;;
  let total_area := (np_sum mapped_pixels * pixel_area)%fl in
  accuracy_metrics <-
    calculate_accuracy_metrics norm_ppf area_proportion_matrix error_matrix
      weights level_95 ;;
  let error_adjusted_area :=
    calculate_error_adjusted_area area_proportion_matrix total_area in
  let confidence_level := level_95 in
  let z_score := norm_ppf (1 - (1 - confidence_level) / 2)%fl in
  area_se_and_ci <-
    calculate_standard_error_and_ci norm_ppf error_matrix weights
      error_adjusted_area total_area level_95 ;;
  let area_standard_errors := standard_errors area_se_and_ci in
  let area_ci_values :=
    map (fun se => (z_score * se)%fl) area_standard_errors in
  Some (mkAnalysis error_matrix mapped_pixels weights area_proportion_matrix
          total_area accuracy_metrics error_adjusted_area area_se_and_ci
          area_standard_errors area_ci_values).

End Form.

(** A cell of the table [save_results] builds. *)
Inductive csv_cell : Type :=
| Text (s : string)
| Number (x : fl).

(** [f"Class {i + 1}"] *)
Definition class_label (i : nat) : string :=
  String.append "Class " (NilEmpty.string_of_uint (Nat.to_uint (i + 1))).

(** The dictionary [result_data] of [save_results], a column name with
    its cells; [[x] * num_classes] is empty for a negative count. *)
Definition result_data (f : form) (a : analysis)
  : list (string * list csv_cell) :=
  let m := r_accuracy_metrics a in
  let n := Z.to_nat (num_classes f) in
  [ ("Class", map (fun i => Text (class_label i)) (zrange (num_classes f)));
    ("User_Accuracy", map Number (m_user_accuracy m));
    ("User_Accuracy_SE", map Number (m_user_accuracy_se m));
    ("User_Accuracy_95%CI", map Number (m_user_accuracy_ci_value m));
    ("Producer_Accuracy", map Number (m_producer_accuracy m));
    ("Producer_Accuracy_SE", map Number (m_producer_accuracy_se m));
    ("Producer_Accuracy_95%CI", map Number (m_producer_accuracy_ci_value m));
    ("Error_Adjusted_Area", map Number (r_error_adjusted_area a));
    ("Error_Adjusted_Area_SE", map Number (r_area_standard_errors a));
    ("Error_Adjusted_Area_95%CI_Value", map Number (r_area_ci_values a));
    ("Overall_Accuracy", repeat (Number (m_overall_accuracy m)) n);
    ("Overall_Accuracy_SE", repeat (Number (m_overall_accuracy_se m)) n);
    ("Overall_Accuracy_95%CI",
     repeat (Number (m_overall_accuracy_ci_value m)) n) ]%string.

(** The forms [setup_matrix_inputs] leaves, whatever is typed into their
    entries afterwards: [q] rows of [q] entries and [q] entries of mapped
    pixels. *)
Definition form_shape (q : nat) (f : form) : Prop :=
  num_classes f = Z.of_nat q
  /\ length (error_entries f) = q
  /\ Forall (fun es => length es = q) (error_entries f)
  /\ length (mapped_pixel_entries f) = q.

(** The value of an entry the float conversion accepts. *)
Definition value_of (float_of : string -> option fl) (e : string) : fl :=
  match float_of e with
  | Some x => x
  | None => nan
  end.

(** The text of an entry is rejected by the float conversion. *)
Definition rejected (float_of : string -> option fl) (e : string) : Prop :=
  float_of e = None.

(** The text of an entry is accepted by the float conversion. *)
Definition accepted (float_of : string -> option fl) (e : string) : Prop :=
  float_of e <> None.

(** Every entry of the form holds a text the float conversion accepts. *)
Definition readable (float_of : string -> option fl) (f : form) : Prop :=
  accepted float_of (entry_pixel_size f)
  /\ Forall (Forall (accepted float_of)) (error_entries f)
  /\ Forall (accepted float_of) (mapped_pixel_entries f).

(** The arrays [run_analysis] reads from a readable form. *)
Definition read_matrix (float_of : string -> option fl) (f : form)
  : list (list fl) :=
  map (map (value_of float_of)) (error_entries f).

Definition read_pixels (float_of : string -> option fl) (f : form)
  : list fl :=
  map (value_of float_of) (mapped_pixel_entries f).

(** A number that is zero or undefined. *)
Definition zero_or_nan (x : fl) : Prop := f_eqb A x 0%fl = true \/ x = nan.

(** The square of the pixel size of the form overflows. *)
Definition pixel_overflows (float_of : string -> option fl) (f : form)
  : Prop :=
  py_pow2 (value_of float_of (entry_pixel_size f)) = None.

End Program.

(** The arithmetic of a function is read off its arguments. *)
Arguments shape {A}.
Arguments np_sum {A}.
Arguments at1 {A}.
Arguments row {A}.
Arguments at2 {A}.
Arguments ncols {A}.
Arguments cells {A}.
Arguments col {A}.
Arguments set_row {A}.
Arguments zeros_like {A}.
Arguments diag_from {A}.
Arguments np_trace {A}.
Arguments sum_axis0 {A}.
Arguments calculate_weights {A}.
Arguments convert_row {A}.
Arguments convert_to_area_proportion {A}.
Arguments init_locals {A}.
Arguments append_user {A}.
Arguments append_producer {A}.
Arguments user_body {A}.
Arguments producer_item {A}.
Arguments sum_gen {A T}.
Arguments producer_body {A}.
Arguments overall_item {A}.
Arguments z_score_of {A}.
Arguments calculate_accuracy_metrics {A}.
Arguments calculate_error_adjusted_area {A}.
Arguments se_body {A}.
Arguments se_outer_body {A}.
Arguments calculate_standard_error_and_ci {A}.
Arguments cell {A}.
Arguments row_total {A}.
Arguments column {A}.
Arguments col_total {A}.
Arguments big_sum {A}.
Arguments sampled {A}.
Arguments spec_U {A}.
Arguments spec_P {A}.
Arguments spec_se_U {A}.
Arguments var_P {A}.
Arguments var_P_row_totals {A}.
Arguments var_P_last_total {A}.
Arguments spec_overall {A}.
Arguments spec_overall_variance {A}.
Arguments se_term {A}.
Arguments spec_se_prop {A}.
Arguments spec_se_prop_zero {A}.
Arguments area_row {A}.
Arguments area_matrix {A}.
Arguments spec_se_P {A}.
Arguments leftover {A}.
Arguments spec_lower_U {A}.
Arguments spec_upper_U {A}.
Arguments spec_half_U {A}.
Arguments user_state {A}.
Arguments last_variance {A}.
Arguments spec_lower_P {A}.
Arguments spec_upper_P {A}.
Arguments spec_half_P {A}.
Arguments producer_state {A}.
Arguments spec_metrics {A}.
Arguments np_zeros {A}.
Arguments np_zeros2 {A}.
Arguments set1 {A}.
Arguments set2 {A}.
Arguments read_cell {A}.
Arguments read_row {A}.
Arguments level_95 {A}.
Arguments run_analysis {A}.
Arguments result_data {A}.
Arguments value_of {A}.
Arguments rejected {A}.
Arguments accepted {A}.
Arguments readable {A}.
Arguments read_matrix {A}.
Arguments read_pixels {A}.
Arguments mkLocals {A}.
Arguments mkMetrics {A}.
Arguments mkUncertainty {A}.
Arguments mkAnalysis {A}.
Arguments Text {A}.
Arguments Number {A}.
Arguments user_accuracy {A}.
Arguments user_accuracy_se {A}.
Arguments user_accuracy_ci_lower {A}.
Arguments user_accuracy_ci_upper {A}.
Arguments user_accuracy_ci_value {A}.
Arguments producer_accuracy {A}.
Arguments producer_accuracy_se {A}.
Arguments producer_accuracy_ci_lower {A}.
Arguments producer_accuracy_ci_upper {A}.
Arguments producer_accuracy_ci_value {A}.
Arguments U_i {A}.
Arguments n_i_dot {A}.
Arguments variance_P_j {A}.
Arguments m_user_accuracy {A}.
Arguments m_user_accuracy_se {A}.
Arguments m_user_accuracy_ci_lower {A}.
Arguments m_user_accuracy_ci_upper {A}.
Arguments m_user_accuracy_ci_value {A}.
Arguments m_producer_accuracy {A}.
Arguments m_producer_accuracy_se {A}.
Arguments m_producer_accuracy_ci_lower {A}.
Arguments m_producer_accuracy_ci_upper {A}.
Arguments m_producer_accuracy_ci_value {A}.
Arguments m_overall_accuracy {A}.
Arguments m_overall_accuracy_variance {A}.
Arguments m_overall_accuracy_se {A}.
Arguments m_overall_accuracy_ci_lower {A}.
Arguments m_overall_accuracy_ci_upper {A}.
Arguments m_overall_accuracy_ci_value {A}.
Arguments standard_errors {A}.
Arguments confidence_intervals {A}.
Arguments r_error_matrix {A}.
Arguments r_mapped_pixels {A}.
Arguments r_weights {A}.
Arguments r_area_proportion_matrix {A}.
Arguments r_total_area {A}.
Arguments r_accuracy_metrics {A}.
Arguments r_error_adjusted_area {A}.
Arguments r_area_se_and_ci {A}.
Arguments r_area_standard_errors {A}.
Arguments r_area_ci_values {A}.
Arguments zero_or_nan {A}.
Arguments pixel_overflows {A}.

(** ** Sample inputs

    In exact arithmetic: the end-to-end example of the specification, a
    two-class error matrix with rows of 2 and 4 samples and even weights,
    and the form of the end-to-end example. *)

Definition of_reals (l : list R) : list xreal := map Fin l.

Definition of_counts (m : list (list R)) : list (list xreal) :=
  map of_reals m.

Definition example_error_matrix : list (list xreal) :=
  of_counts [[70; 10]; [5; 115]].

Definition example_mapped_pixels : list xreal := of_reals [750; 250].

Definition example_weights : list xreal :=
  calculate_weights (A:=exact) example_mapped_pixels.

Definition example_area : list (list xreal) :=
  area_matrix (A:=exact) example_error_matrix example_weights.

(** A stand-in for [scipy.stats.norm.ppf]: the quantile 1.96 of the level
    0.95, whatever its argument. *)
Definition example_ppf (p : xreal) : xreal := Fin (196 / 100).

Definition example_level : xreal := Fin (95 / 100).

Definition small_error_matrix : list (list xreal) :=
  of_counts [[1; 1]; [0; 4]].

Definition even_weights : list xreal := of_reals [1 / 2; 1 / 2].

Definition even_area : list (list xreal) :=
  of_counts [[1 / 4; 1 / 4]; [0; 1 / 2]].


Definition left_error_matrix : list (list xreal) :=
  of_counts [[1; 0]; [1; 0]].

Definition left_area : list (list xreal) :=
  of_counts [[1 / 2; 0]; [1 / 2; 0]].

Definition empty_row_error_matrix : list (list xreal) :=
  of_counts [[0; 0]; [5; 115]].

Definition uneven_weights : list xreal := of_reals [3 / 4; 1 / 4].

(** A float conversion that knows the numerals of the end-to-end example,
    and the form of that example. *)
Definition example_float (e : string) : option xreal :=
  if String.eqb e "30" then Some (Fin 30)
  else if String.eqb e "70" then Some (Fin 70)
  else if String.eqb e "10" then Some (Fin 10)
  else if String.eqb e "5" then Some (Fin 5)
  else if String.eqb e "115" then Some (Fin 115)
  else if String.eqb e "750" then Some (Fin 750)
  else if String.eqb e "250" then Some (Fin 250)
  else None.

Definition example_form : form :=
  mkForm 2 "30" [["70"; "10"]; ["5"; "115"]]%string ["750"; "250"]%string.

(** In binary64 arithmetic: six classes of one mapped pixel each; an error
    matrix whose first row holds 1 and 4 samples, for a map of 3 pixels
    and 1 pixel; the error matrix of the end-to-end example for a map of 700 and
    300 pixels of side 30; and the two-class error matrix above for a map
    whose first class has no mapped pixel. *)







Definition pair_error_matrix : list (list float) := [[1; 1]; [0; 4]]%float.

Definition unmapped_pixels : list float := [0; 1000]%float.

(** A map of two classes of one pixel each. *)
Definition even_pixels : list float := [1; 1]%float.



(** The quantile 1.96, whatever the argument. *)
Definition ppf_196 (p : float) : float := PrimFloat.div 196 100.

(** The weights, the area proportions and the accuracies the program
    computes from an error matrix and the mapped pixels, in binary64
    arithmetic. *)
Definition weights_of (pixels : list float) : list float :=
  calculate_weights (A:=float64) pixels.

Definition area_of (error_matrix : list (list float)) (pixels : list float)
  : option (list (list float)) :=
  convert_to_area_proportion (A:=float64) error_matrix (weights_of pixels).

Definition metrics_of (error_matrix : list (list float))
  (pixels : list float) : option (accuracy_metrics float64) :=
  areaProp <- area_of error_matrix pixels ;;
  calculate_accuracy_metrics (A:=float64) ppf_196 areaProp error_matrix
    (weights_of pixels) (f_095 float64).



(** ** The laws on binary64 numbers

    The laws of the arithmetic, as tests on a list of binary64 numbers:
    [same] is the equality of two binary64 numbers, [nan] being one
    number. *)

Definition law_samples : list float :=
  [0; -0; 1; -1; 2; 3; 7; -7; 0.5; 0x1p-1074; -0x1p-1074; 0x1.8p-1073;
   0x1p-1022; 0x1p-537; 0x1p+512; 0x1.fffffffffffffp+511;
   0x1.fffffffffffffp+1023; -0x1.fffffffffffffp+1023;
   0x1.0000000000001p+0; 0x1.fffffffffffffp-1; 0x1.999999999999ap-4;
   infinity; neg_infinity; nan]%float.

Definition same (x y : float) : bool := PrimFloat.Leibniz.eqb x y.

Definition for_all2 (s : list float) (p : float -> float -> bool) : bool :=
  forallb (fun x => forallb (p x) s) s.

Definition check_nan_laws (s : list float) : bool :=
  forallb
    (fun x =>
       same (nan + x) nan && same (x + nan) nan
       && same (nan - x) nan && same (x - nan) nan
       && same (nan * x) nan && same (x * nan) nan
       && same (nan / x) nan && same (x / nan) nan
       && negb (nan =? x) && negb (x <? nan))%float s
  && same (PrimFloat.sqrt nan) nan.

Definition check_zero_laws (s : list float) : bool :=
  (0 =? 0)%float && same (0 + 0) 0
  && for_all2 s
       (fun x y =>
          implb (same (x + 0) x) (same (x + y + 0) (x + y))
          && implb ((x =? 0) && (y =? 0)) (x + y =? 0)
          && implb (x =? 0) ((x * y =? 0) || same (x * y) nan)
          && implb (x =? 0) (negb (1 <? x))
          && implb ((x =? 0) && (y =? 0)) (same (x / y) nan)
          && implb (y =? 0) (negb (is_finite (x / y))))%float.

Definition check_unit_laws (s : list float) : bool :=
  (0 <? 1)%float && is_finite 1 && negb (1 <? 1)%float
  && forallb
       (fun w =>
          same (w * 1) w
          && implb (0 <? w)
               (negb (w =? 0) && same (0 + w) w && same (w + 0) w)
          && implb ((0 <? w) && is_finite w)
               (same (w * 0) 0 && same (0 / w) 0 && same (w / w) 1))%float s.

Definition check_order_laws (s : list float) : bool :=
  (0 <=? 0)%float
  && for_all2 s
       (fun x y =>
          forallb (fun z => implb ((x <=? y) && (y <=? z)) (x <=? z)) s
          && implb ((0 <=? x) && (0 <=? y)) ((x <=? x + y) && (y <=? x + y))
          && implb ((0 <=? x) && (x <=? 0)) (x =? 0)
          && implb (x =? 0) (x <=? 0)
          && implb ((0 <=? x) && negb (x =? 0)) (0 <? x)
          && implb ((0 <=? x) && is_finite x && (x <=? y) && (0 <? y))
               ((0 <=? x / y) && (x / y <=? 1)))%float.

(** * Properties *)

Arguments fl_pow2 : simpl never.
Arguments fl_sqrt : simpl never.
Arguments fl_ne0 : simpl never.
Arguments fl_gt1 : simpl never.
Arguments range : simpl never.

Section Generic.

(** The arithmetic of the program: any. *)
Variable A : arith.

Local Abbreviation fl := (num A).
Local Abbreviation nan := (f_nan A).
Local Abbreviation vector := (list (num A)).
Local Abbreviation matrix := (list (list (num A))).

(** ** Sums *)

(** A sum that skips the items outside [p] is the sum in which they
    count for 0. *)
Lemma fold_add_filter_zero {T : Type} (p : T -> bool) (g : T -> fl)
  (l : list T) (acc : fl) :
  zero_laws A -> (acc + 0)%fl = acc ->
  fold_left (f_add A) (map g (filter p l)) acc
  = fold_left (f_add A) (map (fun a => if p a then g a else 0%fl) l) acc.
Proof.
  intros Hz. revert acc.
  induction l as [| a l IH]; intros acc Hacc; simpl; trivial.
  destruct (p a); simpl.
  - apply IH. apply (add_keeps_plain A Hz). exact Hacc.
  - rewrite Hacc. apply IH. exact Hacc.
Qed.
(** ** Loops and generators *)

Lemma for_each_app {T S : Type} (l1 l2 : list T) (body : S -> T -> option S)
  (s : S) :
  for_each (l1 ++ l2) body s = (s' <- for_each l1 body s ;; for_each l2 body s').
Proof.
  revert s. induction l1 as [| a l1 IH]; intros s; simpl; trivial.
  destruct (body s a); simpl; trivial.
Qed.

Lemma for_each_accumulate {T : Type} (p : T -> bool) (g : T -> fl)
  (body : fl -> T -> option fl) (l : list T) (acc : fl) :
  (forall a s, In a l ->
     body s a = Some (if p a then (s + g a)%fl else s)) ->
  for_each l body acc = Some (fold_left (f_add A) (map g (filter p l)) acc).
Proof.
  revert acc. induction l as [| a l IH]; intros acc Hb; simpl; trivial.
  rewrite Hb by (left; reflexivity). simpl.
  rewrite IH by (intros; apply Hb; right; assumption).
  destruct (p a); reflexivity.
Qed.

Lemma sum_gen_filter {T : Type} (p : T -> bool) (g : T -> fl)
  (item : T -> option (option fl)) (l : list T) (acc : fl) :
  (forall a, In a l -> item a = Some (if p a then Some (g a) else None)) ->
  sum_gen l item acc = Some (fold_left (f_add A) (map g (filter p l)) acc).
Proof.
  revert acc. induction l as [| a l IH]; intros acc Hi; simpl; trivial.
  rewrite Hi by (left; reflexivity). simpl.
  rewrite IH by (intros; apply Hi; right; assumption).
  destruct (p a); reflexivity.
Qed.

Lemma comprehension_map {T U : Type} (f : T -> U) (item : T -> option U)
  (l : list T) :
  (forall a, In a l -> item a = Some (f a)) ->
  comprehension l item = Some (map f l).
Proof.
  induction l as [| a l IH]; intros Hi; simpl; trivial.
  rewrite Hi by (left; reflexivity). simpl.
  rewrite IH by (intros; apply Hi; right; assumption). reflexivity.
Qed.

Lemma in_range (q i : nat) : In i (range q) <-> (i < q)%nat.
Proof. unfold range. rewrite in_seq. lia. Qed.

Lemma range_S (q : nat) : range (S q) = range q ++ [q].
Proof. unfold range. rewrite seq_S. reflexivity. Qed.

Lemma nth_error_map_range {B : Type} (f : nat -> B) (q i : nat) :
  (i < q)%nat -> nth_error (map f (range q)) i = Some (f i).
Proof.
  intros H. unfold range. rewrite nth_error_map.
  rewrite nth_error_nth' with (d := O) by (rewrite length_seq; lia).
  rewrite seq_nth by lia. reflexivity.
Qed.

(** ** Array accesses in range *)

Lemma at1_nth (v : vector) (i : nat) :
  (i < length v)%nat -> at1 v i = Some (nth i v nan).
Proof. intros H. unfold at1. apply nth_error_nth'. exact H. Qed.

Lemma row_nth (m : matrix) (i : nat) :
  (i < length m)%nat -> row m i = Some (nth i m []).
Proof. intros H. unfold row. apply nth_error_nth'. exact H. Qed.

Lemma shape_row (r c : nat) (m : matrix) (i : nat) :
  shape r c m -> (i < r)%nat ->
  row m i = Some (nth i m []) /\ length (nth i m []) = c.
Proof.
  intros [Hl Hf] Hi. split.
  - unfold row. apply nth_error_nth'. lia.
  - rewrite Forall_forall in Hf. apply Hf. apply nth_In. lia.
Qed.

Lemma shape_at2 (r c : nat) (m : matrix) (i j : nat) :
  shape r c m -> (i < r)%nat -> (j < c)%nat ->
  at2 m i j = Some (cell m i j).
Proof.
  intros Hs Hi Hj. destruct (shape_row r c m i Hs Hi) as [Hr Hc].
  unfold at2. rewrite Hr. simpl. unfold cell. apply at1_nth. lia.
Qed.

Lemma cells_column (c : nat) (m : matrix) (j : nat) :
  Forall (fun r => length r = c) m -> (j < c)%nat ->
  cells m j = Some (column m j).
Proof.
  intros Hf Hj. induction Hf as [| r m Hr Hf IH]; simpl; trivial.
  rewrite at1_nth by lia. simpl. rewrite IH. reflexivity.
Qed.

Lemma shape_col (r c : nat) (m : matrix) (j : nat) :
  shape r c m -> (0 < r)%nat -> (j < c)%nat ->
  col m j = Some (column m j).
Proof.
  intros [Hl Hf] Hr Hj. unfold col.
  assert (Hn : ncols m = c).
  { destruct m as [| r0 m]; simpl in *; [lia |]. inversion Hf; assumption. }
  rewrite Hn. destruct (Nat.ltb_spec j c); [| lia].
  apply cells_column with (c := c); assumption.
Qed.

(** ** The loop of [convert_to_area_proportion] *)

Lemma set_row_app (l1 l2 : matrix) (r0 v : vector) :
  set_row (l1 ++ r0 :: l2) (length l1) v = Some (l1 ++ v :: l2).
Proof.
  induction l1 as [| r l1 IH]; simpl; trivial.
  rewrite IH. reflexivity.
Qed.

Lemma skipn_cons_nth {T : Type} (d : T) (l : list T) (k : nat) :
  (k < length l)%nat -> skipn k l = nth k l d :: skipn (S k) l.
Proof.
  revert k. induction l as [| a l IH]; intros k Hk; simpl in *; [lia |].
  destruct k as [| k]; simpl; trivial.
  apply IH. lia.
Qed.

Section ConvertLoop.

Variable error_matrix : matrix.
Variable weights : vector.
Hypothesis weights_length : length weights = length error_matrix.

Lemma convert_row_step (k : nat) (done rest : matrix) (r0 : vector) :
  (k < length error_matrix)%nat -> length done = k ->
  convert_row error_matrix weights (done ++ r0 :: rest) k
  = Some (done ++ area_row error_matrix weights k :: rest).
Proof.
  intros Hk Hd. unfold convert_row.
  rewrite row_nth by exact Hk. simpl.
  unfold area_row.
  destruct (fl_ne0 (np_sum (nth k error_matrix []))).
  - rewrite at1_nth by lia. simpl. rewrite <- Hd. apply set_row_app.
  - simpl. rewrite <- Hd. apply set_row_app.
Qed.

Lemma convert_loop (k : nat) :
  (k <= length error_matrix)%nat ->
  for_each (range k) (convert_row error_matrix weights)
    (zeros_like error_matrix)
  = Some (map (area_row error_matrix weights) (range k)
          ++ skipn k (zeros_like error_matrix)).
Proof.
  induction k as [| k IH]; intros Hk.
  - reflexivity.
  - rewrite range_S, for_each_app. rewrite IH by lia. simpl.
    assert (Hz : (k < length (zeros_like error_matrix))%nat)
      by (unfold zeros_like; rewrite length_map; lia).
    rewrite (skipn_cons_nth [] _ k Hz).
    rewrite convert_row_step;
      [| lia | unfold range; rewrite length_map, length_seq; reflexivity].
    rewrite map_app. simpl. rewrite <- app_assoc. reflexivity.
Qed.

Lemma convert_closed_form :
  convert_to_area_proportion error_matrix weights
  = Some (area_matrix error_matrix weights).
Proof.
  unfold convert_to_area_proportion. rewrite convert_loop by lia.
  rewrite skipn_all2 by (unfold zeros_like; rewrite length_map; lia).
  rewrite app_nil_r. reflexivity.
Qed.

End ConvertLoop.

Lemma area_matrix_row (em : matrix) (ws : vector) (i : nat) :
  (i < length em)%nat -> nth i (area_matrix em ws) [] = area_row em ws i.
Proof.
  intros Hi. unfold area_matrix.
  apply nth_error_nth. apply nth_error_map_range. exact Hi.
Qed.

Lemma area_row_length (em : matrix) (ws : vector) (i : nat) :
  length (area_row em ws i) = length (nth i em []).
Proof.
  unfold area_row. destruct (fl_ne0 _); apply length_map.
Qed.

Lemma area_matrix_shape (r c : nat) (em : matrix) (ws : vector) :
  shape r c em -> shape r c (area_matrix em ws).
Proof.
  intros [Hl Hf]. split.
  - unfold area_matrix, range. rewrite length_map, length_seq. exact Hl.
  - unfold area_matrix. rewrite Forall_forall. intros x Hx.
    apply in_map_iff in Hx. destruct Hx as [i [<- Hi]].
    apply in_range in Hi. rewrite area_row_length.
    rewrite Forall_forall in Hf. apply Hf. apply nth_In. exact Hi.
Qed.

(** ** The loops of [calculate_accuracy_metrics] *)

Lemma diag_from_cells (m : matrix) (k : nat) :
  (forall i, (i < length m)%nat -> (k + i < length (nth i m []))%nat) ->
  diag_from k m = map (fun i => nth (k + i) (nth i m []) nan) (range (length m)).
Proof.
  revert k. induction m as [| r m IH]; intros k Hm; simpl; trivial.
  pose proof (Hm O ltac:(simpl; lia)) as H0. simpl in H0.
  rewrite nth_error_nth' with (d := nan) by lia.
  rewrite Nat.add_0_r. f_equal.
  rewrite IH.
  - unfold range. rewrite <- seq_shift, map_map.
    apply map_ext. intros i. simpl. f_equal. lia.
  - intros i Hi. specialize (Hm (S i) ltac:(simpl; lia)). simpl in Hm. lia.
Qed.

Lemma np_trace_square (q : nat) (m : matrix) :
  shape q q m -> np_trace m = spec_overall m q.
Proof.
  intros Hs. unfold np_trace, spec_overall.
  rewrite diag_from_cells.
  - destruct Hs as [-> _]. reflexivity.
  - intros i Hi. destruct Hs as [Hl Hf].
    destruct (shape_row q q m i (conj Hl Hf) ltac:(lia)) as [_ Hc]. lia.
Qed.

Lemma leftover_pos (f : nat -> fl) (k : nat) :
  (0 < k)%nat -> leftover f k = Some (f (k - 1)%nat).
Proof.
  intros Hk. destruct k as [| k]; [lia |].
  simpl. rewrite Nat.sub_0_r. reflexivity.
Qed.

Section AccuracyLoops.

Variable z_score : fl.
Variables areaProp error_matrix : matrix.
Variable q : nat.
Hypothesis area_shape : shape q q areaProp.
Hypothesis error_shape : shape q q error_matrix.

Lemma user_body_step (k : nat) :
  (k < q)%nat ->
  user_body areaProp error_matrix z_score
    (user_state z_score areaProp error_matrix k) k
  = Some (user_state z_score areaProp error_matrix (S k)).
Proof.
  intros Hk. unfold user_body.
  rewrite (shape_at2 q q) by assumption.
  destruct (shape_row q q areaProp k area_shape Hk) as [-> _].
  destruct (shape_row q q error_matrix k error_shape Hk) as [-> _].
  simpl bind.
  fold (row_total areaProp k). fold (spec_U areaProp k).
  fold (row_total error_matrix k).
  destruct (fl_gt1 (row_total error_matrix k)) eqn:Hg.
  - f_equal. unfold append_user, user_state.
    rewrite !range_S, !map_app. simpl.
    unfold spec_lower_U, spec_upper_U, spec_half_U, spec_se_U.
    rewrite Hg. reflexivity.
  - f_equal. unfold append_user, user_state.
    rewrite !range_S, !map_app. simpl.
    unfold spec_lower_U, spec_upper_U, spec_half_U, spec_se_U.
    rewrite Hg. reflexivity.
Qed.

Lemma user_loop (k : nat) :
  (k <= q)%nat ->
  for_each (range k) (user_body areaProp error_matrix z_score) init_locals
  = Some (user_state z_score areaProp error_matrix k).
Proof.
  induction k as [| k IH]; intros Hk.
  - reflexivity.
  - rewrite range_S, for_each_app. rewrite IH by lia. simpl.
    rewrite user_body_step by lia. reflexivity.
Qed.

Lemma producer_sum (j : nat) (n : fl) :
  (j < q)%nat ->
  sum_gen (range q) (producer_item error_matrix j n) 0
  = Some (big_sum (others q j)
            (fun i =>
               (cell error_matrix i j / n)
               * (1 - cell error_matrix i j / n) / (n - 1))%fl).
Proof.
  intros Hj. unfold big_sum, others.
  apply sum_gen_filter. intros i Hi. apply in_range in Hi.
  unfold producer_item. destruct (i =? j); simpl; trivial.
  rewrite (shape_at2 q q) by assumption. reflexivity.
Qed.

Lemma producer_body_step (k : nat) :
  (k < q)%nat ->
  producer_body areaProp error_matrix q z_score
    (producer_state z_score areaProp error_matrix q k) k
  = Some (producer_state z_score areaProp error_matrix q (S k)).
Proof.
  intros Hk. unfold producer_body.
  rewrite (shape_at2 q q) by assumption.
  rewrite !(shape_col q q) by (assumption || lia).
  simpl bind.
  fold (col_total areaProp k). fold (spec_P areaProp k).
  fold (col_total error_matrix k).
  destruct (fl_gt1 (col_total error_matrix k)) eqn:Hg.
  - simpl U_i. simpl n_i_dot.
    rewrite !leftover_pos by lia. simpl bind.
    rewrite producer_sum by lia. simpl bind.
    f_equal. unfold append_producer, producer_state.
    rewrite !range_S with (q := k), !map_app. simpl.
    rewrite !leftover_pos by lia.
    unfold spec_lower_P, spec_upper_P, spec_half_P, spec_se_P.
    rewrite Hg. reflexivity.
  - f_equal. unfold append_producer, producer_state.
    rewrite !range_S with (q := k), !map_app. simpl.
    unfold spec_lower_P, spec_upper_P, spec_half_P, spec_se_P.
    rewrite Hg. reflexivity.
Qed.

Lemma producer_loop (k : nat) :
  (k <= q)%nat ->
  for_each (range k) (producer_body areaProp error_matrix q z_score)
    (user_state z_score areaProp error_matrix q)
  = Some (producer_state z_score areaProp error_matrix q k).
Proof.
  induction k as [| k IH]; intros Hk.
  - reflexivity.
  - rewrite range_S, for_each_app. rewrite IH by lia. simpl.
    rewrite producer_body_step by lia. reflexivity.
Qed.

Variable weights : vector.
Hypothesis weights_length : length weights = q.

Lemma overall_sum :
  sum_gen (range q)
    (overall_item error_matrix weights (map (spec_U areaProp) (range q))) 0
  = Some (spec_overall_variance areaProp error_matrix weights q).
Proof.
  unfold spec_overall_variance, big_sum, sampled.
  apply sum_gen_filter. intros i Hi. apply in_range in Hi.
  unfold overall_item.
  destruct (shape_row q q error_matrix i error_shape Hi) as [-> _].
  simpl bind. fold (row_total error_matrix i).
  destruct (fl_gt1 (row_total error_matrix i)); trivial.
  rewrite at1_nth by lia. simpl bind.
  unfold at1. rewrite nth_error_map_range by exact Hi. reflexivity.
Qed.

End AccuracyLoops.

(** On arrays of matching shapes [calculate_accuracy_metrics] raises no
    exception and returns the AccuracyResult of the specification. *)
Lemma accuracy_closed_form (norm_ppf : fl -> fl) (q : nat)
  (areaProp error_matrix : matrix) (weights : vector) (level : fl) :
  shape q q areaProp -> shape q q error_matrix -> length weights = q ->
  calculate_accuracy_metrics norm_ppf areaProp error_matrix weights level
  = Some (spec_metrics (z_score_of norm_ppf level) areaProp error_matrix
            weights q).
Proof.
  intros Ha He Hw. unfold calculate_accuracy_metrics.
  pose proof Ha as [Hl _]. rewrite Hl.
  rewrite user_loop with (q := q) by (assumption || lia). simpl bind.
  rewrite producer_loop by (assumption || lia). simpl bind.
  rewrite overall_sum by assumption. simpl bind.
  rewrite (np_trace_square q) by assumption.
  reflexivity.
Qed.

(** ** Column sums *)

Lemma shape_ncols (r c : nat) (m : matrix) :
  shape r c m -> (0 < r)%nat -> ncols m = c.
Proof.
  intros [Hl Hf] Hr. destruct m as [| r0 m]; simpl in *; [lia |].
  inversion Hf; assumption.
Qed.

Lemma sum_axis0_length (r c : nat) (m : matrix) :
  shape r c m -> (0 < r)%nat -> length (sum_axis0 m) = c.
Proof.
  intros Hs Hr. unfold sum_axis0. rewrite (shape_ncols r c) by assumption.
  rewrite length_map. apply length_seq.
Qed.

Lemma column_cells (m : matrix) (j : nat) :
  column m j = map (fun i => cell m i j) (range (length m)).
Proof.
  unfold column, cell, range. induction m as [| r m IH]; simpl; trivial.
  rewrite <- seq_shift, map_map. rewrite IH. reflexivity.
Qed.

(** The sum along the rows holds the sum of each column. *)
Lemma sum_axis0_nth (r c : nat) (m : matrix) (j : nat) :
  shape r c m -> (0 < r)%nat -> (j < c)%nat ->
  nth j (sum_axis0 m) nan = col_total m j.
Proof.
  intros Hs Hr Hj. unfold sum_axis0. rewrite (shape_ncols r c) by assumption.
  apply nth_error_nth.
  rewrite (nth_error_map_range _ c j Hj). reflexivity.
Qed.

Lemma adjusted_area_length (r c : nat) (m : matrix) (total_area : fl) :
  shape r c m -> (0 < r)%nat ->
  length (calculate_error_adjusted_area m total_area) = c.
Proof.
  intros Hs Hr. unfold calculate_error_adjusted_area.
  rewrite length_map. apply (sum_axis0_length r c); assumption.
Qed.

(** ** The loops of [calculate_standard_error_and_ci] *)

Section UncertaintyLoops.

Variable error_matrix : matrix.
Variable weights : vector.
Variable q : nat.
Hypothesis error_shape : shape q q error_matrix.
Hypothesis weights_length : length weights = q.

Lemma se_inner_loop (j : nat) :
  (j < q)%nat ->
  for_each (range q) (se_body error_matrix weights j) 0%fl
  = Some (big_sum (sampled error_matrix q) (se_term error_matrix weights j)).
Proof.
  intros Hj. unfold big_sum, sampled.
  apply for_each_accumulate. intros i s Hi. apply in_range in Hi.
  unfold se_body.
  rewrite (shape_at2 q q) by assumption.
  destruct (shape_row q q error_matrix i error_shape Hi) as [-> _].
  simpl bind. fold (row_total error_matrix i).
  destruct (fl_gt1 (row_total error_matrix i)); trivial.
  rewrite at1_nth by lia. reflexivity.
Qed.

Lemma se_outer_loop (k : nat) :
  (k <= q)%nat ->
  for_each (range k) (se_outer_body error_matrix weights q) []
  = Some (map (spec_se_prop error_matrix weights q) (range k)).
Proof.
  induction k as [| k IH]; intros Hk.
  - reflexivity.
  - rewrite range_S, for_each_app. rewrite IH by lia. simpl.
    unfold se_outer_body. rewrite se_inner_loop by lia. simpl.
    rewrite map_app. reflexivity.
Qed.

End UncertaintyLoops.

(** On arrays of matching shapes [calculate_standard_error_and_ci] raises
    no exception; its standard errors are [total_area * SE_prop[j]]. *)
Lemma uncertainty_closed_form (norm_ppf : fl -> fl) (q : nat)
  (error_matrix : matrix) (weights estimates : vector)
  (total_area level : fl) :
  shape q q error_matrix -> length weights = q -> length estimates = q ->
  let se := fun j => (total_area * spec_se_prop error_matrix weights q j)%fl in
  let z := z_score_of norm_ppf level in
  calculate_standard_error_and_ci norm_ppf error_matrix weights estimates
    total_area level
  = Some (mkUncertainty (map se (range q))
            (map (fun j => ((nth j estimates nan - z * se j)%fl,
                            (nth j estimates nan + z * se j)%fl))
               (range q))).
Proof.
  intros He Hw Ha se z. unfold calculate_standard_error_and_ci.
  pose proof He as [Hl _]. rewrite Hl.
  rewrite se_outer_loop by (assumption || lia). simpl bind.
  rewrite map_map. fold se.
  rewrite comprehension_map
    with (f := fun j => ((nth j estimates nan - z * se j)%fl,
                         (nth j estimates nan + z * se j)%fl)).
  - reflexivity.
  - intros j Hj. apply in_range in Hj.
    rewrite at1_nth by lia. simpl bind.
    unfold at1. rewrite nth_error_map_range by exact Hj. reflexivity.
Qed.

(** ** Further lemmas on loops and arrays *)

Lemma range_length (q : nat) : length (range q) = q.
Proof. unfold range. apply length_seq. Qed.

Lemma nth_map_range (f : nat -> fl) (q i : nat) :
  (i < q)%nat -> nth i (map f (range q)) nan = f i.
Proof.
  intros Hi. apply nth_error_nth. apply nth_error_map_range. exact Hi.
Qed.

(** A loop whose body raises at some item, in whatever state it is
    reached, raises. *)
Lemma for_each_raises {T S : Type} (l : list T) (body : S -> T -> option S)
  (a : T) (s : S) :
  In a l -> (forall s', body s' a = None) -> for_each l body s = None.
Proof.
  revert s. induction l as [| b l IH]; intros s Hin Hb; simpl.
  - contradiction.
  - destruct Hin as [-> | Hin].
    + rewrite Hb. reflexivity.
    + destruct (body s b) as [s' |]; simpl; [| reflexivity].
      apply IH; assumption.
Qed.

Lemma in_sampled (error_matrix : matrix) (q i : nat) :
  In i (sampled error_matrix q)
  <-> (i < q)%nat /\ fl_gt1 (row_total error_matrix i) = true.
Proof. unfold sampled. rewrite filter_In, in_range. reflexivity. Qed.


Lemma nth_all_nan {T : Type} (l : list T) (j : nat) :
  nth j (map (fun _ => nan) l) nan = nan.
Proof.
  revert j. induction l as [| x l IH]; intros [| j]; simpl; trivial.
Qed.


Lemma in_column (m : matrix) (i j : nat) :
  (i < length m)%nat -> In (cell m i j) (column m j).
Proof.
  intros Hi. unfold column, cell.
  apply (in_map (fun r => nth j r nan)). apply nth_In. exact Hi.
Qed.

(** One round of the producer's-accuracy loop, from any locals in which
    [U_i] and [n_i_dot] are bound. *)
Lemma producer_body_round (z_score : fl) (q : nat)
  (areaProp error_matrix : matrix) (s : locals A) (j : nat) (U n : fl) :
  shape q q areaProp -> shape q q error_matrix -> (j < q)%nat ->
  U_i s = Some U -> n_i_dot s = Some n ->
  fl_gt1 (col_total error_matrix j) = true ->
  let P_j := spec_P areaProp j in
  let n_dot_j := col_total error_matrix j in
  let variance :=
    ((1 / fl_pow2 n_dot_j) *
     ((fl_pow2 n_dot_j * fl_pow2 (1 - P_j) * U * (1 - U)) / (n - 1)
      + fl_pow2 P_j *
        big_sum (others q j)
          (fun i =>
             (cell error_matrix i j / n)
             * (1 - cell error_matrix i j / n) / (n - 1))))%fl in
  producer_body areaProp error_matrix q z_score s j
  = Some (append_producer s (Some variance) P_j (fl_sqrt variance)
            (P_j - z_score * fl_sqrt variance)%fl
            (P_j + z_score * fl_sqrt variance)%fl
            (z_score * fl_sqrt variance)%fl).
Proof.
  intros Ha He Hj HU Hn Hg P_j n_dot_j variance. unfold producer_body.
  rewrite (shape_at2 q q) by assumption.
  rewrite !(shape_col q q) by (assumption || lia).
  simpl bind.
  fold (col_total areaProp j). fold (spec_P areaProp j).
  fold (col_total error_matrix j). rewrite Hg, HU, Hn. simpl bind.
  rewrite (producer_sum error_matrix q) by assumption. reflexivity.
Qed.

Lemma convert_row_reads (error_matrix : matrix) (weights : vector) (k : nat)
  (done rest : matrix) (r0 : vector) :
  (k < length error_matrix)%nat -> length done = k ->
  (fl_ne0 (row_total error_matrix k) = true -> (k < length weights)%nat) ->
  convert_row error_matrix weights (done ++ r0 :: rest) k
  = Some (done ++ area_row error_matrix weights k :: rest).
Proof.
  intros Hk Hd Hw. unfold convert_row.
  rewrite row_nth by exact Hk. simpl bind.
  unfold area_row. fold (row_total error_matrix k).
  destruct (fl_ne0 (row_total error_matrix k)).
  - rewrite at1_nth by (apply Hw; reflexivity). simpl bind.
    rewrite <- Hd. apply set_row_app.
  - simpl bind. rewrite <- Hd. apply set_row_app.
Qed.

Lemma convert_loop_reads (error_matrix : matrix) (weights : vector)
  (k : nat) :
  (k <= length error_matrix)%nat ->
  (forall i, (i < k)%nat -> fl_ne0 (row_total error_matrix i) = true ->
     (i < length weights)%nat) ->
  for_each (range k) (convert_row error_matrix weights)
    (zeros_like error_matrix)
  = Some (map (area_row error_matrix weights) (range k)
          ++ skipn k (zeros_like error_matrix)).
Proof.
  induction k as [| k IH]; intros Hk Hw.
  - reflexivity.
  - rewrite range_S, for_each_app.
    rewrite IH by (try lia; intros i Hi; apply Hw; lia). simpl bind.
    assert (Hz : (k < length (zeros_like error_matrix))%nat)
      by (unfold zeros_like; rewrite length_map; lia).
    rewrite (skipn_cons_nth [] _ k Hz).
    rewrite convert_row_reads;
      [| lia | rewrite length_map; apply range_length | apply Hw; lia].
    rewrite map_app. simpl. rewrite <- app_assoc. reflexivity.
Qed.

Lemma rows_covered_dec (error_matrix : matrix) (weights : vector) (n : nat) :
  (forall i, (i < n)%nat -> fl_ne0 (row_total error_matrix i) = true ->
     (i < length weights)%nat)
  \/ (exists i, (i < n)%nat /\ (length weights <= i)%nat
                /\ fl_ne0 (row_total error_matrix i) = true).
Proof.
  induction n as [| n [IH | IH]].
  - left. intros i Hi. lia.
  - destruct (fl_ne0 (row_total error_matrix n)) eqn:Hn.
    + destruct (Nat.lt_ge_cases n (length weights)) as [Hlt | Hge].
      * left. intros i Hi Hne.
        destruct (Nat.eq_dec i n) as [-> | Hin]; [exact Hlt |].
        apply IH; [lia | exact Hne].
      * right. exists n. repeat split; trivial. lia.
    + left. intros i Hi Hne.
      destruct (Nat.eq_dec i n) as [-> | Hin]; [congruence |].
      apply IH; [lia | exact Hne].
  - right. destruct IH as (i & Hi & Hw & Hne). exists i.
    repeat split; trivial. lia.
Qed.

Lemma fold_append_length {T U : Type} (x : U) (l : list T) (acc : list U) :
  length (fold_left (fun r (_ : T) => r ++ [x]) l acc)
  = (length acc + length l)%nat.
Proof.
  revert acc. induction l as [| a l IH]; intros acc; simpl; [lia |].
  rewrite IH, length_app. simpl. lia.
Qed.

Lemma setup_row_fst (n : Z) (st : list (list string) * list string)
  (i : nat) :
  fst (setup_row n st i)
  = fst st
    ++ [fold_left (fun r (_ : nat) => r ++ [new_entry]) (zrange n) []].
Proof. reflexivity. Qed.

Lemma setup_row_snd (n : Z) (st : list (list string) * list string)
  (i : nat) :
  snd (setup_row n st i) = snd st ++ [new_entry].
Proof. reflexivity. Qed.

Lemma setup_rows (n : Z) (l : list nat)
  (st : list (list string) * list string) :
  length (fst (fold_left (setup_row n) l st))
  = (length (fst st) + length l)%nat
  /\ length (snd (fold_left (setup_row n) l st))
     = (length (snd st) + length l)%nat
  /\ (Forall (fun es => length es = Z.to_nat n) (fst st) ->
      Forall (fun es => length es = Z.to_nat n)
        (fst (fold_left (setup_row n) l st))).
Proof.
  revert st. induction l as [| i l IH]; intros st; simpl.
  - repeat split; trivial; lia.
  - destruct (IH (setup_row n st i)) as (H1 & H2 & H3).
    rewrite setup_row_fst in H1, H3. rewrite setup_row_snd in H2.
    rewrite length_app in H1, H2. simpl in H1, H2.
    repeat split; try lia.
    intros Hf. apply H3. apply Forall_app. split; [exact Hf |].
    constructor; [| constructor].
    rewrite fold_append_length. unfold zrange. rewrite range_length.
    reflexivity.
Qed.

Lemma set1_at (l1 l2 : vector) (y x : fl) (k : nat) :
  length l1 = k -> set1 (l1 ++ y :: l2) k x = Some (l1 ++ x :: l2).
Proof.
  intros <-. induction l1 as [| a l1 IH]; simpl; trivial.
  rewrite IH. reflexivity.
Qed.

Lemma row_at (done rest : matrix) (r : vector) (k : nat) :
  length done = k -> row (done ++ r :: rest) k = Some r.
Proof.
  intros <-. unfold row. rewrite nth_error_app2 by lia.
  rewrite Nat.sub_diag. reflexivity.
Qed.

Lemma set_row_at (done rest : matrix) (r0 v : vector) (k : nat) :
  length done = k -> set_row (done ++ r0 :: rest) k v = Some (done ++ v :: rest).
Proof. intros <-. apply set_row_app. Qed.

Lemma repeat_cons {T : Type} (x : T) (n k : nat) :
  (k < n)%nat -> repeat x (n - k) = x :: repeat x (n - S k).
Proof.
  intros Hk. replace (n - k)%nat with (S (n - S k)) by lia. reflexivity.
Qed.

Lemma map_nth_range_of {T U : Type} (g : T -> U) (d : T) (l : list T) :
  map (fun j => g (nth j l d)) (range (length l)) = map g l.
Proof.
  unfold range. induction l as [| x l IH]; simpl; trivial.
  rewrite <- seq_shift, map_map. simpl. rewrite IH. reflexivity.
Qed.

Lemma accepted_value (float_of : string -> option fl) (e : string) :
  accepted float_of e -> float_of e = Some (value_of float_of e).
Proof.
  unfold accepted, value_of. destruct (float_of e); [reflexivity | congruence].
Qed.

Section ReadForm.

Variable float_of : string -> option fl.
Variable f : form.
Variable q : nat.
Hypothesis f_shape : form_shape q f.

Lemma entries_row (i : nat) :
  (i < q)%nat ->
  nth_error (error_entries f) i = Some (nth i (error_entries f) [])
  /\ length (nth i (error_entries f) []) = q.
Proof.
  intros Hi. destruct f_shape as (_ & Hl & Hf & _). split.
  - apply nth_error_nth'. lia.
  - rewrite Forall_forall in Hf. apply Hf. apply nth_In. lia.
Qed.

Lemma zrange_classes : zrange (num_classes f) = range q.
Proof.
  destruct f_shape as (Hn & _). unfold zrange. rewrite Hn, Nat2Z.id.
  reflexivity.
Qed.

(** The cells of row [i] read so far. *)
Let cells_read (i l : nat) : vector :=
  map (fun j => value_of float_of (nth j (nth i (error_entries f) []) ""%string))
    (range l).

Lemma read_cells_loop (i l : nat) (done rest : matrix) :
  (i < q)%nat -> (l <= q)%nat -> length done = i ->
  Forall (accepted float_of) (nth i (error_entries f) []) ->
  for_each (range l) (read_cell float_of f i)
    (done ++ repeat 0%fl q :: rest)
  = Some (done ++ (cells_read i l ++ repeat 0%fl (q - l)) :: rest).
Proof.
  intros Hi Hl Hd Hacc. induction l as [| l IH].
  - simpl. rewrite Nat.sub_0_r. reflexivity.
  - rewrite range_S, for_each_app. rewrite IH by lia. simpl bind.
    unfold read_cell.
    destruct (entries_row i Hi) as [-> Hlen]. simpl bind.
    rewrite nth_error_nth' with (d := ""%string) by lia. simpl bind.
    rewrite accepted_value
      by (rewrite Forall_forall in Hacc; apply Hacc; apply nth_In; lia).
    simpl bind. unfold set2. rewrite row_at by exact Hd. simpl bind.
    rewrite (repeat_cons 0%fl q l) by lia.
    assert (Hc : length (cells_read i l) = l)
      by (unfold cells_read; rewrite length_map; apply range_length).
    rewrite set1_at by exact Hc. simpl bind.
    rewrite set_row_at by exact Hd. f_equal. f_equal. f_equal.
    unfold cells_read. rewrite range_S, map_app, <- app_assoc.
    reflexivity.
Qed.

Lemma read_row_step (k : nat) (done rest : matrix) (pixels later : vector) :
  (k < q)%nat -> length done = k -> length pixels = k ->
  Forall (accepted float_of) (nth k (error_entries f) []) ->
  accepted float_of (nth k (mapped_pixel_entries f) ""%string) ->
  read_row float_of f
    (done ++ repeat 0%fl q :: rest, pixels ++ 0%fl :: later) k
  = Some (done ++ map (value_of float_of) (nth k (error_entries f) []) :: rest,
          pixels
          ++ value_of float_of (nth k (mapped_pixel_entries f) ""%string)
             :: later).
Proof.
  intros Hk Hd Hp Hacc Hm. unfold read_row. cbn [fst snd].
  rewrite zrange_classes, read_cells_loop by (trivial; lia). simpl bind.
  destruct f_shape as (_ & _ & _ & Hlm).
  rewrite nth_error_nth' with (d := ""%string) by lia. simpl bind.
  rewrite accepted_value by exact Hm. simpl bind.
  rewrite set1_at by exact Hp. simpl bind.
  rewrite Nat.sub_diag, app_nil_r. unfold cells_read.
  destruct (entries_row k Hk) as [_ Hlen].
  rewrite <- Hlen at 1. rewrite map_nth_range_of. reflexivity.
Qed.

Lemma read_rows_loop (k : nat) :
  (k <= q)%nat ->
  Forall (Forall (accepted float_of)) (error_entries f) ->
  Forall (accepted float_of) (mapped_pixel_entries f) ->
  for_each (range k) (read_row float_of f)
    (repeat (repeat 0%fl q) q, repeat 0%fl q)
  = Some (map (fun i => map (value_of float_of) (nth i (error_entries f) []))
            (range k)
          ++ repeat (repeat 0%fl q) (q - k),
          map (fun i =>
                 value_of float_of (nth i (mapped_pixel_entries f) ""%string))
            (range k)
          ++ repeat 0%fl (q - k)).
Proof.
  intros Hk He Hm. induction k as [| k IH].
  - simpl. rewrite Nat.sub_0_r. reflexivity.
  - rewrite range_S, for_each_app. rewrite IH by lia. simpl bind.
    destruct f_shape as (_ & Hle & _ & Hlm).
    rewrite (repeat_cons (repeat 0%fl q) q k) by lia.
    rewrite (repeat_cons 0%fl q k) by lia.
    rewrite read_row_step.
    + rewrite !map_app. simpl. rewrite <- !app_assoc. reflexivity.
    + lia.
    + rewrite length_map. apply range_length.
    + rewrite length_map. apply range_length.
    + rewrite Forall_forall in He. apply He. apply nth_In. lia.
    + rewrite Forall_forall in Hm. apply Hm. apply nth_In. lia.
Qed.

(** A readable form is read into the arrays of its values. *)
Lemma read_form :
  Forall (Forall (accepted float_of)) (error_entries f) ->
  Forall (accepted float_of) (mapped_pixel_entries f) ->
  for_each (range q) (read_row float_of f)
    (repeat (repeat 0%fl q) q, repeat 0%fl q)
  = Some (read_matrix float_of f, read_pixels float_of f).
Proof.
  intros He Hm. rewrite read_rows_loop by (trivial; lia).
  rewrite Nat.sub_diag. simpl. rewrite !app_nil_r.
  destruct f_shape as (_ & Hle & _ & Hlm).
  unfold read_matrix, read_pixels. f_equal. f_equal.
  - rewrite <- Hle. apply (map_nth_range_of (map (value_of float_of))).
  - rewrite <- Hlm. apply (map_nth_range_of (value_of float_of)).
Qed.

(** An entry the float conversion rejects stops the reading. *)
Lemma read_form_rejected (st : list (list fl) * list fl) :
  Exists (Exists (rejected float_of)) (error_entries f)
  \/ Exists (rejected float_of) (mapped_pixel_entries f) ->
  for_each (range q) (read_row float_of f) st = None.
Proof.
  destruct f_shape as (_ & Hle & Hf & Hlm).
  intros [He | Hm].
  - apply Exists_nth in He. destruct He as (i & d & Hi & He).
    rewrite nth_indep with (d' := []) in He by exact Hi.
    apply Exists_nth in He. destruct He as (j & d' & Hj & He).
    rewrite nth_indep with (d' := ""%string) in He by exact Hj.
    assert (Hiq : (i < q)%nat) by lia.
    destruct (entries_row i Hiq) as [Hrow Hlen].
    apply for_each_raises with (a := i); [apply in_range; lia |].
    intros s'. unfold read_row. rewrite zrange_classes.
    rewrite for_each_raises with (a := j);
      [reflexivity | apply in_range; lia |].
    intros em. unfold read_cell. rewrite Hrow. simpl bind.
    rewrite nth_error_nth' with (d := ""%string) by exact Hj. simpl bind.
    unfold rejected in He. rewrite He. reflexivity.
  - apply Exists_nth in Hm. destruct Hm as (i & d & Hi & Hm).
    rewrite nth_indep with (d' := ""%string) in Hm by exact Hi.
    apply for_each_raises with (a := i); [apply in_range; lia |].
    intros s'. unfold read_row.
    destruct (for_each _ _ _); [| reflexivity]. simpl bind.
    rewrite nth_error_nth' with (d := ""%string) by exact Hi. simpl bind.
    unfold rejected in Hm. rewrite Hm. reflexivity.
Qed.

End ReadForm.

Lemma adjusted_area_length_square (q : nat) (m : matrix) (total_area : fl) :
  shape q q m -> length (calculate_error_adjusted_area m total_area) = q.
Proof.
  intros Hs. destruct q as [| q].
  - destruct Hs as [Hl _]. destruct m; [reflexivity | discriminate].
  - apply (adjusted_area_length (S q) (S q)); [exact Hs | lia].
Qed.

Lemma calculate_weights_length (mapped_pixels : vector) :
  length (calculate_weights mapped_pixels) = length mapped_pixels.
Proof. unfold calculate_weights. apply length_map. Qed.

Lemma read_matrix_shape (float_of : string -> option fl) (q : nat)
  (f : form) :
  form_shape q f -> shape q q (read_matrix float_of f).
Proof.
  intros (_ & Hl & Hf & _). unfold read_matrix. split.
  - rewrite length_map. exact Hl.
  - rewrite Forall_map. revert Hf. apply Forall_impl.
    intros es Hes. rewrite length_map. exact Hes.
Qed.

Lemma read_pixels_length (float_of : string -> option fl) (q : nat)
  (f : form) :
  form_shape q f -> length (read_pixels float_of f) = q.
Proof.
  intros (_ & _ & _ & Hl). unfold read_pixels. rewrite length_map. exact Hl.
Qed.

Lemma zeros_of_nat (q : nat) :
  np_zeros (A:=A) (Z.of_nat q) = Some (repeat 0%fl q)
  /\ np_zeros2 (A:=A) (Z.of_nat q) (Z.of_nat q)
     = Some (repeat (repeat 0%fl q) q).
Proof.
  unfold np_zeros, np_zeros2.
  destruct (Z.ltb_spec (Z.of_nat q) 0) as [H | H]; [lia |].
  simpl. rewrite Nat2Z.id. split; reflexivity.
Qed.

Lemma accepted_or_rejected (float_of : string -> option fl)
  (l : list string) :
  Forall (accepted float_of) l \/ Exists (rejected float_of) l.
Proof.
  induction l as [| e l [IH | IH]].
  - left. constructor.
  - destruct (float_of e) eqn:He.
    + left. constructor; [unfold accepted; congruence | exact IH].
    + right. left. exact He.
  - right. right. exact IH.
Qed.

Lemma accepted_or_rejected_rows (float_of : string -> option fl)
  (l : list (list string)) :
  Forall (Forall (accepted float_of)) l
  \/ Exists (Exists (rejected float_of)) l.
Proof.
  induction l as [| es l [IH | IH]].
  - left. constructor.
  - destruct (accepted_or_rejected float_of es) as [H | H].
    + left. constructor; assumption.
    + right. left. exact H.
  - right. right. exact IH.
Qed.

(** ** AccuracyEstimator *)

(** C4. The overall accuracy [calculate_accuracy_metrics] returns is the
    trace of the area-proportion matrix, and its variance is the sum of
    [weight[i]^2 * U_i(1-U_i)/(n_i - 1)] over the classes with [n_i > 1]
    only, [U_i] being the user's accuracy it reports; the other classes
    are left out of the sum. *)
Theorem overall_accuracy_trace_and_variance (norm_ppf : fl -> fl) (q : nat)
  (areaProp error_matrix : matrix) (weights : vector) (level : fl) :
  shape q q areaProp -> shape q q error_matrix -> length weights = q ->
  exists m,
    calculate_accuracy_metrics norm_ppf areaProp error_matrix weights level
    = Some m
    /\ m_user_accuracy m = map (spec_U areaProp) (range q)
    /\ m_overall_accuracy m
       = np_sum (map (fun i => cell areaProp i i) (range q))
    /\ m_overall_accuracy_variance m
       = big_sum
           (filter (fun i => fl_gt1 (row_total error_matrix i)) (range q))
           (fun i =>
              fl_pow2 (nth i weights nan) * spec_U areaProp i
              * (1 - spec_U areaProp i)
              / (row_total error_matrix i - 1))%fl
    /\ m_overall_accuracy_se m = fl_sqrt (m_overall_accuracy_variance m).
Proof.
  intros Ha He Hw. eexists. split.
  - apply (accuracy_closed_form norm_ppf q); assumption.
  - repeat split.
Qed.

(** ** AreaUncertaintyEstimator *)

(** C8. The standard error [calculate_standard_error_and_ci] returns for
    class [j] is [total_area * SE_prop[j]], where [SE_prop[j]] is the square
    root of the sum of [weight[i]^2 (n_ij/n_i)(1 - n_ij/n_i)/(n_i - 1)] over
    the rows with [n_i > 1]; a row with [n_i <= 1] counts for exactly 0. *)
Theorem area_standard_errors_formula (norm_ppf : fl -> fl) (q : nat)
  (error_matrix : matrix) (weights estimates : vector)
  (total_area level : fl) :
  zero_laws A ->
  shape q q error_matrix -> length weights = q -> length estimates = q ->
  exists u,
    calculate_standard_error_and_ci norm_ppf error_matrix weights estimates
      total_area level = Some u
    /\ forall j, (j < q)%nat ->
       nth_error (standard_errors u) j
       = Some (total_area * spec_se_prop error_matrix weights q j)%fl
       /\ spec_se_prop error_matrix weights q j
          = spec_se_prop_zero error_matrix weights q j.
Proof.
  intros Hz He Hw Ha. eexists. split.
  - apply (uncertainty_closed_form norm_ppf q); assumption.
  - intros j Hj. split.
    + cbn [standard_errors].
      rewrite nth_error_map_range by exact Hj. reflexivity.
    + unfold spec_se_prop, spec_se_prop_zero, big_sum, sampled.
      f_equal. apply fold_add_filter_zero; [exact Hz |].
      apply (add_zero_zero A Hz).
Qed.

(** ** The variance of the producer's accuracy *)

(** C1, as amended.  For a class [j] with [n_{.j} > 1] the standard error
    of the producer's accuracy is the square root of
    [(1/n_{.j}^2) * [ n_{.j}^2 (1-P_j)^2 U(1-U)/(n-1)
                      + P_j^2 * sum_{i<>j} (n_ij/n)(1 - n_ij/n)/(n-1) ]]
    in which [U] and [n] are the values of class [q-1] in the first term
    and [n] is the row total of class [q-1] inside the sum as well. *)
Theorem producer_variance_formula (norm_ppf : fl -> fl) (q : nat)
  (areaProp error_matrix : matrix) (weights : vector) (level : fl)
  (j : nat) :
  shape q q areaProp -> shape q q error_matrix -> length weights = q ->
  (j < q)%nat -> fl_gt1 (col_total error_matrix j) = true ->
  exists m,
    calculate_accuracy_metrics norm_ppf areaProp error_matrix weights level
    = Some m
    /\ nth_error (m_producer_accuracy m) j = Some (spec_P areaProp j)
    /\ nth_error (m_producer_accuracy_se m) j
       = Some (fl_sqrt
                 (var_P areaProp error_matrix q
                    (fun _ => row_total error_matrix (q - 1)) j)).
Proof.
  intros Ha He Hw Hj Hg. eexists. split.
  - apply (accuracy_closed_form norm_ppf q); assumption.
  - unfold spec_metrics, producer_state.
    cbn [m_producer_accuracy m_producer_accuracy_se
         producer_accuracy producer_accuracy_se].
    rewrite !nth_error_map_range by exact Hj.
    unfold spec_se_P. rewrite Hg. split; reflexivity.
Qed.

(** C10. After the user's-accuracy loop [U_i] and [n_i_dot] hold the
    values of the last class, [q-1]; a round of the producer's-accuracy
    loop for a class [j] with [n_{.j} > 1] leaves them as they are and
    computes [variance_P_j] with that [n_i_dot] for every row sample size
    of the formula: in the first term and, inside the sum over [i <> j],
    in [error_matrix[i][j]/n] and in [/(n - 1)]. *)
Theorem producer_variance_reads_leftover (z_score : fl) (q : nat)
  (areaProp error_matrix : matrix) :
  shape q q areaProp -> shape q q error_matrix -> (0 < q)%nat ->
  exists s1,
    for_each (range q) (user_body areaProp error_matrix z_score) init_locals
    = Some s1
    /\ U_i s1 = Some (spec_U areaProp (q - 1))
    /\ n_i_dot s1 = Some (row_total error_matrix (q - 1))
    /\ forall (s : locals A) (j : nat),
         (j < q)%nat -> U_i s = U_i s1 -> n_i_dot s = n_i_dot s1 ->
         fl_gt1 (col_total error_matrix j) = true ->
         exists s',
           producer_body areaProp error_matrix q z_score s j = Some s'
           /\ U_i s' = U_i s1 /\ n_i_dot s' = n_i_dot s1
           /\ variance_P_j s'
              = Some (var_P areaProp error_matrix q
                        (fun _ => row_total error_matrix (q - 1)) j).
Proof.
  intros Ha He Hq.
  exists (user_state z_score areaProp error_matrix q).
  split; [apply (user_loop z_score areaProp error_matrix q Ha He q); lia |].
  unfold user_state at 1 2. cbn [U_i n_i_dot].
  rewrite !leftover_pos by exact Hq.
  split; [reflexivity |]. split; [reflexivity |].
  intros s j Hj HU Hn Hg.
  unfold user_state in HU, Hn. cbn [U_i n_i_dot] in HU, Hn.
  rewrite leftover_pos in HU, Hn by exact Hq.
  eexists. split.
  - apply (producer_body_round z_score q); eassumption.
  - unfold append_producer. cbn [U_i n_i_dot variance_P_j].
    unfold user_state. cbn [U_i n_i_dot].
    rewrite !leftover_pos by exact Hq.
    repeat split; assumption.
Qed.

(** ** The lists of [calculate_accuracy_metrics] *)

(** X1. On arrays of matching shapes each of the ten per-class lists
    [calculate_accuracy_metrics] returns has one value per class. *)
Theorem accuracy_lists_lengths (norm_ppf : fl -> fl) (q : nat)
  (areaProp error_matrix : matrix) (weights : vector) (level : fl) :
  shape q q areaProp -> shape q q error_matrix -> length weights = q ->
  exists m,
    calculate_accuracy_metrics norm_ppf areaProp error_matrix weights level
    = Some m
    /\ length (m_user_accuracy m) = q
    /\ length (m_user_accuracy_se m) = q
    /\ length (m_user_accuracy_ci_lower m) = q
    /\ length (m_user_accuracy_ci_upper m) = q
    /\ length (m_user_accuracy_ci_value m) = q
    /\ length (m_producer_accuracy m) = q
    /\ length (m_producer_accuracy_se m) = q
    /\ length (m_producer_accuracy_ci_lower m) = q
    /\ length (m_producer_accuracy_ci_upper m) = q
    /\ length (m_producer_accuracy_ci_value m) = q.
Proof.
  intros Ha He Hw. eexists. split.
  - apply (accuracy_closed_form norm_ppf q); assumption.
  - unfold spec_metrics, producer_state, user_state.
    cbn [m_user_accuracy m_user_accuracy_se m_user_accuracy_ci_lower
         m_user_accuracy_ci_upper m_user_accuracy_ci_value
         m_producer_accuracy m_producer_accuracy_se
         m_producer_accuracy_ci_lower m_producer_accuracy_ci_upper
         m_producer_accuracy_ci_value
         user_accuracy user_accuracy_se user_accuracy_ci_lower
         user_accuracy_ci_upper user_accuracy_ci_value
         producer_accuracy producer_accuracy_se producer_accuracy_ci_lower
         producer_accuracy_ci_upper producer_accuracy_ci_value].
    rewrite !length_map, range_length. repeat split.
Qed.

(** X2. Every interval [calculate_accuracy_metrics] returns is built from
    its standard error: for each class, and for the overall accuracy, the
    half-width is [z * SE] and the bounds are the accuracy minus and plus
    the half-width, also where the standard error is undefined. *)
Theorem accuracy_intervals_from_se (norm_ppf : fl -> fl) (q : nat)
  (areaProp error_matrix : matrix) (weights : vector) (level : fl) :
  nan_laws A ->
  shape q q areaProp -> shape q q error_matrix -> length weights = q ->
  let z := norm_ppf (1 - (1 - level) / 2)%fl in
  exists m,
    calculate_accuracy_metrics norm_ppf areaProp error_matrix weights level
    = Some m
    /\ (forall i, (i < q)%nat ->
        let U := nth i (m_user_accuracy m) nan in
        let ci := nth i (m_user_accuracy_ci_value m) nan in
        ci = (z * nth i (m_user_accuracy_se m) nan)%fl
        /\ nth i (m_user_accuracy_ci_lower m) nan = (U - ci)%fl
        /\ nth i (m_user_accuracy_ci_upper m) nan = (U + ci)%fl)
    /\ (forall j, (j < q)%nat ->
        let P := nth j (m_producer_accuracy m) nan in
        let ci := nth j (m_producer_accuracy_ci_value m) nan in
        ci = (z * nth j (m_producer_accuracy_se m) nan)%fl
        /\ nth j (m_producer_accuracy_ci_lower m) nan = (P - ci)%fl
        /\ nth j (m_producer_accuracy_ci_upper m) nan = (P + ci)%fl)
    /\ m_overall_accuracy_ci_value m = (z * m_overall_accuracy_se m)%fl
    /\ m_overall_accuracy_ci_lower m
       = (m_overall_accuracy m - m_overall_accuracy_ci_value m)%fl
    /\ m_overall_accuracy_ci_upper m
       = (m_overall_accuracy m + m_overall_accuracy_ci_value m)%fl.
Proof.
  intros Hnan Ha He Hw z. eexists. split.
  - apply (accuracy_closed_form norm_ppf q); assumption.
  - unfold spec_metrics, producer_state, user_state.
    cbn [m_user_accuracy m_user_accuracy_se m_user_accuracy_ci_lower
         m_user_accuracy_ci_upper m_user_accuracy_ci_value
         m_producer_accuracy m_producer_accuracy_se
         m_producer_accuracy_ci_lower m_producer_accuracy_ci_upper
         m_producer_accuracy_ci_value
         m_overall_accuracy m_overall_accuracy_se
         m_overall_accuracy_ci_lower m_overall_accuracy_ci_upper
         m_overall_accuracy_ci_value
         user_accuracy user_accuracy_se user_accuracy_ci_lower
         user_accuracy_ci_upper user_accuracy_ci_value
         producer_accuracy producer_accuracy_se producer_accuracy_ci_lower
         producer_accuracy_ci_upper producer_accuracy_ci_value].
    split; [| split].
    + intros i Hi. cbv zeta. rewrite !nth_map_range by exact Hi.
      unfold spec_lower_U, spec_upper_U, spec_half_U, spec_se_U.
      destruct (fl_gt1 (row_total error_matrix i)); [repeat split |].
      rewrite (mul_nan_r A Hnan), (sub_nan_r A Hnan), (add_nan_r A Hnan).
      repeat split.
    + intros j Hj. cbv zeta. rewrite !nth_map_range by exact Hj.
      unfold spec_lower_P, spec_upper_P, spec_half_P, spec_se_P.
      destruct (fl_gt1 (col_total error_matrix j)); [repeat split |].
      rewrite (mul_nan_r A Hnan), (sub_nan_r A Hnan), (add_nan_r A Hnan).
      repeat split.
    + repeat split.
Qed.

(** X3. For each class the reported user's accuracy is the diagonal
    cell of the area proportions over the sum of its row ([nan] when that
    sum is 0), and its standard error is the square root of
    [U(1-U)/(n-1)] when the row of the error matrix sums to [n > 1],
    [nan] otherwise. *)
Theorem user_accuracy_and_se (norm_ppf : fl -> fl) (q : nat)
  (areaProp error_matrix : matrix) (weights : vector) (level : fl) :
  shape q q areaProp -> shape q q error_matrix -> length weights = q ->
  exists m,
    calculate_accuracy_metrics norm_ppf areaProp error_matrix weights level
    = Some m
    /\ forall i, (i < q)%nat ->
       let U := if fl_ne0 (row_total areaProp i)
                then (cell areaProp i i / row_total areaProp i)%fl
                else nan in
       let n := row_total error_matrix i in
       nth_error (m_user_accuracy m) i = Some U
       /\ nth_error (m_user_accuracy_se m) i
          = Some (if fl_gt1 n then fl_sqrt (U * (1 - U) / (n - 1))%fl
                  else nan).
Proof.
  intros Ha He Hw. eexists. split.
  - apply (accuracy_closed_form norm_ppf q); assumption.
  - intros i Hi. unfold spec_metrics, producer_state, user_state.
    cbn [m_user_accuracy m_user_accuracy_se user_accuracy user_accuracy_se].
    cbv zeta. rewrite !nth_error_map_range by exact Hi.
    split; reflexivity.
Qed.

(** X4. For each class the reported producer's accuracy is the diagonal
    cell of the area proportions over the sum of its column ([nan] when
    that sum is 0); when the column of the error matrix does not sum to
    more than 1, its standard error, bounds and half-width are [nan]. *)
Theorem producer_accuracy_and_undefined_se (norm_ppf : fl -> fl) (q : nat)
  (areaProp error_matrix : matrix) (weights : vector) (level : fl) :
  shape q q areaProp -> shape q q error_matrix -> length weights = q ->
  exists m,
    calculate_accuracy_metrics norm_ppf areaProp error_matrix weights level
    = Some m
    /\ forall j, (j < q)%nat ->
       nth_error (m_producer_accuracy m) j
       = Some (if fl_ne0 (col_total areaProp j)
               then (cell areaProp j j / col_total areaProp j)%fl
               else nan)
       /\ (fl_gt1 (col_total error_matrix j) = false ->
           nth_error (m_producer_accuracy_se m) j = Some nan
           /\ nth_error (m_producer_accuracy_ci_lower m) j = Some nan
           /\ nth_error (m_producer_accuracy_ci_upper m) j = Some nan
           /\ nth_error (m_producer_accuracy_ci_value m) j = Some nan).
Proof.
  intros Ha He Hw. eexists. split.
  - apply (accuracy_closed_form norm_ppf q); assumption.
  - intros j Hj. unfold spec_metrics, producer_state.
    cbn [m_producer_accuracy m_producer_accuracy_se
         m_producer_accuracy_ci_lower m_producer_accuracy_ci_upper
         m_producer_accuracy_ci_value
         producer_accuracy producer_accuracy_se producer_accuracy_ci_lower
         producer_accuracy_ci_upper producer_accuracy_ci_value].
    rewrite !nth_error_map_range by exact Hj.
    split; [reflexivity |].
    intros Hg. unfold spec_lower_P, spec_upper_P, spec_half_P, spec_se_P.
    rewrite Hg. repeat split.
Qed.

(** ** Arrays that do not match *)

(** X11. [convert_to_area_proportion] reads [weights[i]] only for the rows
    whose total is not 0: it raises an [IndexError] exactly when some row
    with a total other than 0 has no weight, and otherwise returns a matrix
    with the rows of the error matrix, whatever the number of weights. *)
Theorem convert_raises_iff (error_matrix : matrix) (weights : vector) :
  (convert_to_area_proportion error_matrix weights = None
   <-> exists i, (i < length error_matrix)%nat
                 /\ (length weights <= i)%nat
                 /\ fl_ne0 (row_total error_matrix i) = true)
  /\ (forall areaProp,
        convert_to_area_proportion error_matrix weights = Some areaProp ->
        length areaProp = length error_matrix
        /\ forall i, length (nth i areaProp []) = length (nth i error_matrix [])).
Proof.
  unfold convert_to_area_proportion.
  destruct (rows_covered_dec error_matrix weights (length error_matrix))
    as [Hall | Hex].
  - rewrite convert_loop_reads by (trivial; lia).
    rewrite skipn_all2 by (unfold zeros_like; rewrite length_map; lia).
    rewrite app_nil_r. split.
    + split; [discriminate |].
      intros (i & Hi & Hw & Hne). specialize (Hall i Hi Hne). lia.
    + intros a Ha. injection Ha as <-. split.
      * rewrite length_map. apply range_length.
      * intros i. destruct (Nat.lt_ge_cases i (length error_matrix)) as [Hi | Hi].
        -- fold (area_matrix error_matrix weights).
           rewrite area_matrix_row by exact Hi. apply area_row_length.
        -- rewrite !nth_overflow;
             [reflexivity | lia | rewrite length_map, range_length; lia].
  - assert (Hnone : for_each (range (length error_matrix))
                      (convert_row error_matrix weights)
                      (zeros_like error_matrix) = None).
    { destruct Hex as (i & Hi & Hw & Hne).
      apply for_each_raises with (a := i); [apply in_range; exact Hi |].
      intros s'. unfold convert_row. rewrite row_nth by exact Hi.
      simpl bind. fold (row_total error_matrix i). rewrite Hne.
      unfold at1. replace (nth_error weights i) with (@None fl)
        by (symmetry; apply nth_error_None; exact Hw).
      reflexivity. }
    rewrite Hnone. split.
    + split; [intros _; exact Hex | reflexivity].
    + intros a Ha. discriminate.
Qed.

(** X12. When the error matrix has fewer rows than the area-proportion
    matrix, [calculate_accuracy_metrics] raises an [IndexError]: no
    partial result is returned. *)
Theorem accuracy_raises_on_short_error_matrix (norm_ppf : fl -> fl)
  (q : nat) (areaProp error_matrix : matrix) (weights : vector)
  (level : fl) :
  shape q q areaProp -> (length error_matrix < q)%nat ->
  calculate_accuracy_metrics norm_ppf areaProp error_matrix weights level
  = None.
Proof.
  intros Ha Hl. unfold calculate_accuracy_metrics.
  pose proof Ha as [HlA _]. rewrite HlA.
  rewrite for_each_raises with (a := length error_matrix);
    [reflexivity | apply in_range; exact Hl |].
  intros s'. unfold user_body.
  rewrite (shape_at2 q q) by assumption.
  destruct (shape_row q q areaProp _ Ha Hl) as [-> _]. simpl bind.
  unfold row. replace (nth_error error_matrix (length error_matrix))
    with (@None (list fl)) by (symmetry; apply nth_error_None; lia).
  reflexivity.
Qed.

(** ** The form *)

(** X13. When the text of the class-count entry reads as an integer
    [n >= 0], [setup_matrix_inputs] leaves a square form: [n] rows of [n]
    error-matrix entries and [n] entries of mapped pixels. *)
Theorem setup_gives_square_form (int_of : string -> option Z)
  (entry_classes : string) (n : Z) :
  int_of entry_classes = Some n -> (0 <= n)%Z ->
  exists f,
    setup_matrix_inputs int_of entry_classes = Some f
    /\ form_shape (Z.to_nat n) f.
Proof.
  intros Hint Hn. unfold setup_matrix_inputs. rewrite Hint. simpl bind.
  eexists. split; [reflexivity |].
  destruct (setup_rows n (zrange n) ([], [])) as (H1 & H2 & H3).
  unfold zrange in H1, H2. rewrite range_length in H1, H2.
  unfold form_shape. cbn [num_classes error_entries mapped_pixel_entries].
  repeat split.
  - rewrite Z2Nat.id by exact Hn. reflexivity.
  - exact H1.
  - apply H3. constructor.
  - exact H2.
Qed.

(** ** Undefined values *)

Lemma fl_ne0_nan : nan_laws A -> fl_ne0 nan = true.
Proof. intros Hn. unfold fl_ne0. rewrite (eqb_nan_l A Hn). reflexivity. Qed.

Lemma fl_gt1_nan : nan_laws A -> fl_gt1 nan = false.
Proof. intros Hn. unfold fl_gt1. apply (ltb_nan_r A Hn). Qed.

Lemma fl_ne0_false (x : fl) : fl_ne0 x = false -> f_eqb A x 0%fl = true.
Proof. unfold fl_ne0. destruct (f_eqb A x 0%fl); [reflexivity | discriminate]. Qed.

Lemma fold_add_nan (l : vector) :
  nan_laws A -> fold_left (f_add A) l nan = nan.
Proof.
  intros Hn. induction l as [| x l IH]; simpl; trivial.
  rewrite (add_nan_l A Hn). exact IH.
Qed.

(** A sum one of whose terms is undefined is undefined. *)
Lemma fold_add_in_nan (l : vector) (acc : fl) :
  nan_laws A -> In nan l -> fold_left (f_add A) l acc = nan.
Proof.
  intros Hn. revert acc. induction l as [| x l IH]; intros acc Hin; simpl.
  - contradiction.
  - destruct Hin as [-> | Hin].
    + rewrite (add_nan_r A Hn). apply fold_add_nan. exact Hn.
    + apply IH. exact Hin.
Qed.

Lemma col_total_nan (m : matrix) (i j : nat) :
  sum_laws A -> (i < length m)%nat -> cell m i j = nan -> col_total m j = nan.
Proof.
  intros Hs Hi Hc. unfold col_total, np_sum. apply (sum_nan A Hs).
  rewrite <- Hc. apply in_column. exact Hi.
Qed.

Lemma big_sum_nan (l : list nat) (f : nat -> fl) (i : nat) :
  nan_laws A -> In i l -> f i = nan -> big_sum l f = nan.
Proof.
  intros Hn Hi Hf. unfold big_sum. apply fold_add_in_nan; [exact Hn |].
  rewrite <- Hf. apply in_map. exact Hi.
Qed.

(** ** Zeros *)

Lemma fold_add_zero_or_nan (l : vector) (acc : fl) :
  nan_laws A -> zero_laws A ->
  zero_or_nan acc -> Forall zero_or_nan l ->
  zero_or_nan (fold_left (f_add A) l acc).
Proof.
  intros Hn Hz. revert acc.
  induction l as [| x l IH]; intros acc Hacc Hl; simpl; [exact Hacc |].
  inversion Hl as [| x' l' Hx Hl']; subst. apply IH; [| exact Hl'].
  destruct Hacc as [Ha | ->]; [| right; apply (add_nan_l A Hn)].
  destruct Hx as [Hx | ->]; [| right; apply (add_nan_r A Hn)].
  left. apply (add_zeros A Hz); assumption.
Qed.

(** Dividing by a sum that is zero or undefined gives no number. *)
Lemma quotient_zero_or_nan (x t : fl) :
  nan_laws A -> zero_or_nan t ->
  (if fl_ne0 t then (x / t)%fl else nan) = nan.
Proof.
  intros Hn [Ht | ->].
  - unfold fl_ne0. rewrite Ht. reflexivity.
  - rewrite (div_nan_r A Hn). destruct (fl_ne0 nan); reflexivity.
Qed.

(** ** Sums of numbers that are not negative *)

Lemma fold_add_bounds (l : vector) (acc : fl) :
  order_laws A ->
  f_leb A 0%fl acc = true -> Forall (fun x => f_leb A 0%fl x = true) l ->
  (forall b, f_leb A b acc = true ->
     f_leb A b (fold_left (f_add A) l acc) = true)
  /\ (forall x, In x l -> f_leb A x (fold_left (f_add A) l acc) = true).
Proof.
  intros Ho. revert acc.
  induction l as [| x l IH]; intros acc Hacc Hl; simpl.
  - split; [trivial | contradiction].
  - inversion Hl as [| x' l' Hx Hl']; subst.
    destruct (add_nonneg A Ho acc x Hacc Hx) as [H1 H2].
    assert (H0 : f_leb A 0%fl (acc + x)%fl = true)
      by (apply (leb_trans A Ho) with (y := acc); assumption).
    destruct (IH (acc + x)%fl H0 Hl') as [IHa IHb].
    split.
    + intros b Hb. apply IHa.
      apply (leb_trans A Ho) with (y := acc); assumption.
    + intros y [<- | Hy]; [apply IHa; exact H2 | apply IHb; exact Hy].
Qed.

Lemma np_sum_bounds (l : vector) :
  sum_laws A -> Forall (fun x => f_leb A 0%fl x = true) l ->
  f_leb A 0%fl (np_sum l) = true
  /\ (forall x, In x l -> f_leb A x (np_sum l) = true).
Proof. intros Hs Hl. apply (sum_nonneg A Hs). exact Hl. Qed.

(** ** WeightComputer *)

Lemma calculate_weights_nth (mapped_pixels : vector) (i : nat) :
  (i < length mapped_pixels)%nat ->
  nth_error (calculate_weights mapped_pixels) i
  = Some (nth i mapped_pixels nan / np_sum mapped_pixels)%fl.
Proof.
  intros Hi. unfold calculate_weights. rewrite nth_error_map.
  rewrite nth_error_nth' with (d := nan) by exact Hi. reflexivity.
Qed.


(** X9. On finite mapped pixels that are not negative, with a positive
    total, every weight lies between 0 and 1. *)
Theorem weights_between_0_and_1 (mapped_pixels : vector) (i : nat) :
  order_laws A -> sum_laws A ->
  Forall (fun x => f_leb A 0%fl x = true /\ f_finite A x = true)
    mapped_pixels ->
  f_ltb A 0%fl (np_sum mapped_pixels) = true ->
  (i < length mapped_pixels)%nat ->
  exists w,
    nth_error (calculate_weights mapped_pixels) i = Some w
    /\ f_leb A 0%fl w = true /\ f_leb A w 1%fl = true.
Proof.
  intros Ho Hs Hnn Ht Hi.
  eexists. split; [apply calculate_weights_nth; exact Hi |].
  assert (Hin : In (nth i mapped_pixels nan) mapped_pixels)
    by (apply nth_In; exact Hi).
  assert (Hnn' : Forall (fun x => f_leb A 0%fl x = true) mapped_pixels)
    by (revert Hnn; apply Forall_impl; intros x [Hx _]; exact Hx).
  rewrite Forall_forall in Hnn. destruct (Hnn _ Hin) as [Hx Hf].
  destruct (np_sum_bounds mapped_pixels Hs Hnn') as [_ Hle].
  apply (div_in_unit A Ho); trivial. apply Hle. exact Hin.
Qed.

(** ** AreaProportionConverter *)




(** ** AreaEstimator *)


(** ** The user's accuracy *)


(** The user's accuracy of a class whose weight is zero is undefined,
    whatever its row of the error matrix. *)
Lemma spec_U_zero_weight (q : nat) (error_matrix : matrix) (weights : vector)
  (i : nat) :
  nan_laws A -> zero_laws A -> sum_laws A ->
  shape q q error_matrix -> (i < q)%nat ->
  fl_ne0 (nth i weights nan) = false ->
  spec_U (area_matrix error_matrix weights) i = nan.
Proof.
  intros Hn Hz Hsum Hs Hi Hw. apply fl_ne0_false in Hw.
  pose proof Hs as [Hl _].
  unfold spec_U. apply quotient_zero_or_nan; [exact Hn |].
  unfold row_total. rewrite area_matrix_row by lia. unfold np_sum.
  apply (sum_zeros A Hsum).
  - unfold area_row. destruct (fl_ne0 _); rewrite Forall_map;
      apply Forall_forall; intros x _.
    + apply (mul_zero_l A Hz). exact Hw.
    + right. reflexivity.
Qed.


(** ** The variance of the overall accuracy *)

(** C2, as amended.  For a q x q error matrix and q weights nothing is
    raised, and the variance of the overall accuracy is the sum over
    exactly the classes with [n_i > 1], in which a class counts with the
    user's accuracy reported for it, defined or not.  When a class with
    [n_i > 1] has an undefined user's accuracy, the variance, the standard
    error, the bounds and the half-width of the overall accuracy are
    undefined; the user's accuracy of a class is undefined whenever its
    weight is 0. *)
Theorem overall_variance_over_sampled_classes (norm_ppf : fl -> fl)
  (q : nat) (error_matrix : matrix) (weights : vector) (level : fl) :
  nan_laws A -> zero_laws A -> sum_laws A ->
  shape q q error_matrix -> length weights = q ->
  exists areaProp m,
    convert_to_area_proportion error_matrix weights = Some areaProp
    /\ calculate_accuracy_metrics norm_ppf areaProp error_matrix weights
         level = Some m
    /\ m_overall_accuracy_variance m
       = big_sum
           (filter (fun i => fl_gt1 (row_total error_matrix i)) (range q))
           (fun i =>
              fl_pow2 (nth i weights nan) * nth i (m_user_accuracy m) nan
              * (1 - nth i (m_user_accuracy m) nan)
              / (row_total error_matrix i - 1))%fl
    /\ forall i, (i < q)%nat ->
       (fl_ne0 (nth i weights nan) = false ->
        nth i (m_user_accuracy m) nan = nan)
       /\ (fl_gt1 (row_total error_matrix i) = true ->
           nth i (m_user_accuracy m) nan = nan ->
           m_overall_accuracy_variance m = nan
           /\ m_overall_accuracy_se m = nan
           /\ m_overall_accuracy_ci_lower m = nan
           /\ m_overall_accuracy_ci_upper m = nan
           /\ m_overall_accuracy_ci_value m = nan).
Proof.
  intros Hn Hz Hsum Hs Hw. pose proof Hs as [Hl _].
  exists (area_matrix error_matrix weights). eexists.
  split; [apply convert_closed_form; lia |].
  split; [apply (accuracy_closed_form norm_ppf q); trivial;
          apply area_matrix_shape; exact Hs |].
  unfold spec_metrics, producer_state, user_state.
  cbn [m_user_accuracy user_accuracy m_overall_accuracy_variance
       m_overall_accuracy_se m_overall_accuracy_ci_lower
       m_overall_accuracy_ci_upper m_overall_accuracy_ci_value].
  set (areaProp := area_matrix error_matrix weights).
  assert (Hv : spec_overall_variance areaProp error_matrix weights q
               = big_sum
                   (filter (fun i => fl_gt1 (row_total error_matrix i))
                      (range q))
                   (fun i =>
                      fl_pow2 (nth i weights nan)
                      * nth i (map (spec_U areaProp) (range q)) nan
                      * (1 - nth i (map (spec_U areaProp) (range q)) nan)
                      / (row_total error_matrix i - 1))%fl).
  { unfold spec_overall_variance, big_sum, sampled. f_equal.
    apply map_ext_in. intros i Hi. apply filter_In in Hi.
    destruct Hi as [Hi _]. apply in_range in Hi.
    rewrite nth_map_range by exact Hi. reflexivity. }
  split; [exact Hv |].
  intros i Hi. rewrite nth_map_range by exact Hi. split.
  - intros Hw0. apply (spec_U_zero_weight q); assumption.
  - intros Hg HU.
    assert (Hvar : spec_overall_variance areaProp error_matrix weights q = nan).
    { unfold spec_overall_variance.
      apply (big_sum_nan _ _ i); [exact Hn | |].
      - apply in_sampled. split; assumption.
      - rewrite HU.
        rewrite (mul_nan_r A Hn), (mul_nan_l A Hn), (div_nan_l A Hn).
        reflexivity. }
    rewrite Hvar, (sqrt_nan A Hn), (mul_nan_r A Hn), (sub_nan_r A Hn),
      (add_nan_r A Hn).
    repeat split.
Qed.

(** ** A class with a single sample *)

(** The sum from the left of a row that holds [v] in cell [k] and 0
    elsewhere. *)
Lemma fold_add_single (v : fl) (k q : nat) :
  (0 + 0)%fl = 0%fl :> fl -> (0 + v)%fl = v -> (v + 0)%fl = v ->
  fold_left (f_add A) (map (fun j => if j =? k then v else 0%fl) (range q))
    0%fl
  = if k <? q then v else 0%fl.
Proof.
  intros H00 H0v Hv0. induction q as [| q IH].
  - reflexivity.
  - rewrite range_S, map_app, fold_left_app, IH. simpl.
    destruct (Nat.eqb_spec q k) as [-> | Hqk].
    + destruct (Nat.ltb_spec k k); [lia |].
      destruct (Nat.ltb_spec k (S k)); [| lia]. exact H0v.
    + destruct (Nat.ltb_spec k q); destruct (Nat.ltb_spec k (S q));
        try lia; assumption.
Qed.


(** ** A class without samples *)

(** X5. When a row of the error matrix sums to 0, the whole row of area
    proportions is [nan], and it spreads: the user's accuracy of that class
    and its standard error are [nan], and so are the overall accuracy, the
    producer's accuracy of every class and the error-adjusted area of every
    class. *)
Theorem empty_row_spreads (norm_ppf : fl -> fl) (q : nat)
  (error_matrix : matrix) (weights : vector) (level total_area : fl)
  (i0 : nat) :
  nan_laws A -> zero_laws A -> sum_laws A ->
  shape q q error_matrix -> length weights = q -> (i0 < q)%nat ->
  fl_ne0 (row_total error_matrix i0) = false ->
  exists areaProp m,
    convert_to_area_proportion error_matrix weights = Some areaProp
    /\ calculate_accuracy_metrics norm_ppf areaProp error_matrix weights
         level = Some m
    /\ (forall j, (j < q)%nat -> cell areaProp i0 j = nan)
    /\ nth_error (m_user_accuracy m) i0 = Some nan
    /\ nth_error (m_user_accuracy_se m) i0 = Some nan
    /\ m_overall_accuracy m = nan
    /\ forall j, (j < q)%nat ->
       nth_error (m_producer_accuracy m) j = Some nan
       /\ nth_error (calculate_error_adjusted_area areaProp total_area) j
          = Some nan.
Proof.
  intros Hn Hz Hsum Hs Hw Hi Hne.
  pose proof Hs as [Hl _].
  set (areaProp := area_matrix error_matrix weights).
  assert (HA : shape q q areaProp) by (apply area_matrix_shape; exact Hs).
  assert (HlA : length areaProp = q) by (destruct HA; assumption).
  assert (Hcell : forall j, cell areaProp i0 j = nan).
  { intros j. unfold cell, areaProp. rewrite area_matrix_row by lia.
    unfold area_row. fold (row_total error_matrix i0). rewrite Hne.
    apply nth_all_nan. }
  assert (Hcol : forall j, col_total areaProp j = nan).
  { intros j. apply (col_total_nan areaProp i0 j); [exact Hsum | lia |].
    apply Hcell. }
  exists areaProp. eexists.
  split; [apply convert_closed_form; lia |].
  split; [apply (accuracy_closed_form norm_ppf q); assumption |].
  split; [intros j _; apply Hcell |].
  unfold spec_metrics, producer_state, user_state.
  cbn [m_user_accuracy m_user_accuracy_se m_producer_accuracy
       m_overall_accuracy user_accuracy user_accuracy_se producer_accuracy].
  rewrite !nth_error_map_range by exact Hi.
  assert (HU : spec_U areaProp i0 = nan).
  { unfold spec_U. rewrite Hcell, (div_nan_l A Hn).
    destruct (fl_ne0 (row_total areaProp i0)); reflexivity. }
  split; [rewrite HU; reflexivity |].
  split.
  { unfold spec_se_U. unfold fl_gt1.
    rewrite (zero_not_gt1 A Hz) by (apply fl_ne0_false; exact Hne).
    reflexivity. }
  split.
  { unfold spec_overall, np_sum. apply (sum_nan A Hsum).
    rewrite <- (Hcell i0).
    apply (in_map (fun i => cell areaProp i i)). apply in_range. exact Hi. }
  intros j Hj. split.
  - rewrite nth_error_map_range by exact Hj. f_equal.
    unfold spec_P. rewrite Hcol, (div_nan_r A Hn).
    destruct (fl_ne0 nan); reflexivity.
  - unfold calculate_error_adjusted_area. rewrite nth_error_map.
    rewrite nth_error_nth' with (d := nan)
      by (rewrite (sum_axis0_length q q) by (trivial; lia); exact Hj).
    rewrite (sum_axis0_nth q q) by (trivial; lia).
    rewrite Hcol. simpl. rewrite (mul_nan_r A Hn). reflexivity.
Qed.

(** ** Bounds *)

(** X6. When the cells of row [i] of the area-proportion matrix are
    finite and not negative, the user's accuracy of class [i] is [nan] if
    the row sums to 0 and lies between 0 and 1 otherwise. *)
Theorem user_accuracy_bounds (norm_ppf : fl -> fl) (q : nat)
  (areaProp error_matrix : matrix) (weights : vector) (level : fl)
  (i : nat) :
  order_laws A -> sum_laws A ->
  shape q q areaProp -> shape q q error_matrix -> length weights = q ->
  (i < q)%nat ->
  Forall (fun x => f_leb A 0%fl x = true /\ f_finite A x = true)
    (nth i areaProp []) ->
  exists m U,
    calculate_accuracy_metrics norm_ppf areaProp error_matrix weights level
    = Some m
    /\ nth_error (m_user_accuracy m) i = Some U
    /\ (fl_ne0 (row_total areaProp i) = false -> U = nan)
    /\ (fl_ne0 (row_total areaProp i) = true ->
        f_leb A 0%fl U = true /\ f_leb A U 1%fl = true).
Proof.
  intros Ho Hsum Ha He Hw Hi Hnn. eexists. eexists.
  split; [apply (accuracy_closed_form norm_ppf q); assumption |].
  unfold spec_metrics, producer_state, user_state.
  cbn [m_user_accuracy user_accuracy].
  split; [apply nth_error_map_range; exact Hi |].
  unfold spec_U. split.
  - intros ->. reflexivity.
  - intros Hne. rewrite Hne.
    destruct (shape_row q q areaProp i Ha Hi) as [_ Hc].
    assert (Hin : In (cell areaProp i i) (nth i areaProp []))
      by (unfold cell; apply nth_In; lia).
    assert (Hnn' : Forall (fun x => f_leb A 0%fl x = true) (nth i areaProp []))
      by (revert Hnn; apply Forall_impl; intros x [Hx _]; exact Hx).
    rewrite Forall_forall in Hnn. destruct (Hnn _ Hin) as [Hx Hf].
    destruct (np_sum_bounds (nth i areaProp []) Hsum Hnn') as [H0 Hle].
    apply (div_in_unit A Ho); trivial.
    + apply Hle. exact Hin.
    + apply (nonneg_ne0_pos A Ho); [exact H0 |].
      unfold fl_ne0 in Hne. fold (row_total areaProp i).
      destruct (f_eqb A (row_total areaProp i) 0%fl);
        [discriminate | reflexivity].
Qed.

(** ** The analysis *)

Lemma py_pow2_some (x : fl) :
  py_pow2 x <> None -> py_pow2 x = Some (fl_pow2 x).
Proof.
  unfold py_pow2. destruct (f_finite A x && negb (f_finite A (fl_pow2 x)));
    [congruence | reflexivity].
Qed.

(** What [run_analysis] computes from a readable form whose pixel size has
    a square. *)
Lemma run_analysis_computes (float_of : string -> option fl)
  (norm_ppf : fl -> fl) (q : nat) (f : form) :
  form_shape q f -> readable float_of f -> ~ pixel_overflows float_of f ->
  let error_matrix := read_matrix float_of f in
  let mapped_pixels := read_pixels float_of f in
  let pixel_size := value_of float_of (entry_pixel_size f) in
  let weights := calculate_weights mapped_pixels in
  let areaProp := area_matrix error_matrix weights in
  let total_area := (np_sum mapped_pixels * fl_pow2 pixel_size)%fl in
  let z := z_score_of norm_ppf level_95 in
  let areas := calculate_error_adjusted_area areaProp total_area in
  let se := fun j =>
    (total_area * spec_se_prop error_matrix weights q j)%fl in
  run_analysis float_of norm_ppf f
  = Some (mkAnalysis error_matrix mapped_pixels weights areaProp total_area
            (spec_metrics z areaProp error_matrix weights q)
            areas
            (mkUncertainty (map se (range q))
               (map (fun j => ((nth j areas nan - z * se j)%fl,
                               (nth j areas nan + z * se j)%fl))
                  (range q)))
            (map se (range q))
            (map (fun s => (z * s)%fl) (map se (range q)))).
Proof.
  intros Hs (Hp & He & Hm) Hsq. cbv zeta. unfold run_analysis.
  rewrite (accepted_value float_of _ Hp). simpl bind.
  pose proof Hs as (Hn & _). rewrite Hn.
  destruct (zeros_of_nat q) as [-> ->]. simpl bind.
  unfold zrange. rewrite Nat2Z.id.
  rewrite (read_form float_of f q Hs He Hm). simpl bind. cbn [fst snd].
  pose proof (read_matrix_shape float_of q f Hs) as Hem.
  pose proof (read_pixels_length float_of q f Hs) as Hmp.
  pose proof Hem as [Hl _].
  assert (Hw : length (calculate_weights (read_pixels float_of f)) = q)
    by (rewrite calculate_weights_length; exact Hmp).
  rewrite convert_closed_form by lia. simpl bind.
  rewrite py_pow2_some by exact Hsq. simpl bind.
  assert (Ha : shape q q (area_matrix (read_matrix float_of f)
                            (calculate_weights (read_pixels float_of f))))
    by (apply area_matrix_shape; exact Hem).
  rewrite (accuracy_closed_form norm_ppf q) by assumption. simpl bind.
  rewrite (uncertainty_closed_form norm_ppf q)
    by (trivial; apply adjusted_area_length_square; exact Ha).
  reflexivity.
Qed.

(** X14. On a square form [run_analysis] ends in its error dialog
    exactly when the float conversion rejects the text of some entry, the
    pixel size, a cell of the error matrix or a count of mapped pixels, or
    the square of the pixel size overflows.  Whatever numbers the entries
    hold otherwise (zeros, infinities, [nan]), the computations raise
    nothing. *)
Theorem run_analysis_fails_iff (float_of : string -> option fl)
  (norm_ppf : fl -> fl) (q : nat) (f : form) :
  form_shape q f ->
  run_analysis float_of norm_ppf f = None
  <-> rejected float_of (entry_pixel_size f)
      \/ Exists (Exists (rejected float_of)) (error_entries f)
      \/ Exists (rejected float_of) (mapped_pixel_entries f)
      \/ pixel_overflows float_of f.
Proof.
  intros Hs. split.
  - intros Hnone.
    destruct (float_of (entry_pixel_size f)) eqn:Hp; [| left; exact Hp].
    destruct (accepted_or_rejected_rows float_of (error_entries f))
      as [He | He]; [| right; left; exact He].
    destruct (accepted_or_rejected float_of (mapped_pixel_entries f))
      as [Hm | Hm]; [| right; right; left; exact Hm].
    destruct (py_pow2 (value_of float_of (entry_pixel_size f))) eqn:Hsq;
      [| right; right; right; exact Hsq].
    exfalso.
    assert (Hr : readable float_of f).
    { repeat split; trivial. unfold accepted. congruence. }
    assert (Hno : ~ pixel_overflows float_of f)
      by (unfold pixel_overflows; congruence).
    pose proof (run_analysis_computes float_of norm_ppf q f Hs Hr Hno) as H.
    cbv zeta in H. congruence.
  - intros [Hp | Hrest].
    + unfold run_analysis. unfold rejected in Hp. rewrite Hp. reflexivity.
    + unfold run_analysis. unfold pixel_overflows, value_of in Hrest.
      destruct (float_of (entry_pixel_size f)) as [x |]; [| reflexivity].
      simpl bind.
      pose proof Hs as (Hn & _). rewrite Hn.
      destruct (zeros_of_nat q) as [-> ->]. simpl bind.
      unfold zrange. rewrite Nat2Z.id.
      destruct Hrest as [He | [Hm | Hsq]].
      * rewrite (read_form_rejected float_of f q Hs) by (left; exact He).
        reflexivity.
      * rewrite (read_form_rejected float_of f q Hs) by (right; exact Hm).
        reflexivity.
      * destruct (for_each _ _ _) as [st |]; [| reflexivity]. simpl bind.
        destruct (convert_to_area_proportion _ _); [| reflexivity].
        simpl bind. rewrite Hsq. reflexivity.
Qed.


(** X16. The table [save_results] builds from the results
    [run_analysis] computes on a readable form whose pixel size has a
    square has thirteen columns, each with one cell per class, so
    that the columns line up; the three overall-accuracy columns repeat the
    same value on every row. *)
Theorem result_data_columns (float_of : string -> option fl)
  (norm_ppf : fl -> fl) (q : nat) (f : form) :
  form_shape q f -> readable float_of f -> ~ pixel_overflows float_of f ->
  exists a,
    run_analysis float_of norm_ppf f = Some a
    /\ length (result_data f a) = 13%nat
    /\ Forall (fun column => length (snd column) = q) (result_data f a)
    /\ forall i, (i < q)%nat ->
       let m := r_accuracy_metrics a in
       nth_error (snd (nth 10 (result_data f a) (EmptyString, []))) i
       = Some (Number (m_overall_accuracy m))
       /\ nth_error (snd (nth 11 (result_data f a) (EmptyString, []))) i
          = Some (Number (m_overall_accuracy_se m))
       /\ nth_error (snd (nth 12 (result_data f a) (EmptyString, []))) i
          = Some (Number (m_overall_accuracy_ci_value m)).
Proof.
  intros Hs Hr Hsq. eexists. split.
  - apply (run_analysis_computes float_of norm_ppf q f Hs Hr Hsq).
  - pose proof (read_matrix_shape float_of q f Hs) as Hem.
    assert (Ha : shape q q (area_matrix (read_matrix float_of f)
                   (calculate_weights (read_pixels float_of f))))
      by (apply area_matrix_shape; exact Hem).
    pose proof Hs as (Hn & _).
    unfold result_data. rewrite Hn, Nat2Z.id.
    cbn [r_accuracy_metrics r_error_adjusted_area r_area_standard_errors
         r_area_ci_values].
    unfold spec_metrics, producer_state, user_state.
    cbn [m_user_accuracy m_user_accuracy_se m_user_accuracy_ci_value
         m_producer_accuracy m_producer_accuracy_se
         m_producer_accuracy_ci_value m_overall_accuracy
         m_overall_accuracy_se m_overall_accuracy_ci_value
         user_accuracy user_accuracy_se user_accuracy_ci_value
         producer_accuracy producer_accuracy_se producer_accuracy_ci_value].
    split; [reflexivity |]. split.
    + unfold zrange. rewrite Nat2Z.id.
      repeat constructor; cbn [snd];
        rewrite ?length_map, ?repeat_length, ?range_length; trivial.
      apply adjusted_area_length_square. exact Ha.
    + intros i Hi. cbn [nth snd].
      rewrite !nth_error_repeat by exact Hi. repeat split.
Qed.

End Generic.

(** * The exact arithmetic *)

(** ** Its operations on real numbers *)

Lemma x_add_0_r (x : xreal) : x_add x (Fin 0) = x.
Proof. destruct x; simpl; trivial. f_equal; lra. Qed.

Lemma x_add_0_l (x : xreal) : x_add (Fin 0) x = x.
Proof. destruct x; simpl; trivial. f_equal; lra. Qed.

Lemma x_eqb_true (a b : R) : a = b -> x_eqb (Fin a) (Fin b) = true.
Proof. intros H. simpl. destruct (Req_dec_T a b); [reflexivity | contradiction]. Qed.

Lemma x_eqb_false (a b : R) : a <> b -> x_eqb (Fin a) (Fin b) = false.
Proof. intros H. simpl. destruct (Req_dec_T a b); [contradiction | reflexivity]. Qed.

Lemma x_eqb_zero (x : xreal) : x_eqb x (Fin 0) = true -> x = Fin 0.
Proof.
  destruct x as [a | | |]; simpl; try discriminate.
  destruct (Req_dec_T a 0); [intros _; f_equal; assumption | discriminate].
Qed.

Lemma x_ltb_true (a b : R) : a < b -> x_ltb (Fin a) (Fin b) = true.
Proof. intros H. simpl. destruct (Rlt_dec a b); [reflexivity | contradiction]. Qed.

Lemma x_ltb_false (a b : R) : b <= a -> x_ltb (Fin a) (Fin b) = false.
Proof. intros H. simpl. destruct (Rlt_dec a b); [lra | reflexivity]. Qed.

Lemma x_leb_true (a b : R) : a <= b -> x_leb (Fin a) (Fin b) = true.
Proof. intros H. simpl. destruct (Rle_dec a b); [reflexivity | contradiction]. Qed.

Lemma x_leb_fin (a b : R) : x_leb (Fin a) (Fin b) = true -> a <= b.
Proof. simpl. destruct (Rle_dec a b); [trivial | discriminate]. Qed.

Lemma x_ltb_fin (a b : R) : x_ltb (Fin a) (Fin b) = true -> a < b.
Proof. simpl. destruct (Rlt_dec a b); [trivial | discriminate]. Qed.

Lemma x_div_fin (a b : R) : b <> 0 -> x_div (Fin a) (Fin b) = Fin (a / b).
Proof. intros H. simpl. destruct (Req_dec_T b 0); [contradiction | reflexivity]. Qed.

Lemma x_div_0_0 : x_div (Fin 0) (Fin 0) = NaN.
Proof.
  simpl. destruct (Req_dec_T 0 0); [| contradiction].
  unfold inf_of_sign. destruct (Rlt_dec 0 0); [lra | reflexivity].
Qed.

Lemma inf_of_sign_0 : inf_of_sign 0 = NaN.
Proof. unfold inf_of_sign. destruct (Rlt_dec 0 0); [lra | reflexivity]. Qed.



Lemma inf_of_sign_not_finite (a : R) : x_finite (inf_of_sign a) = false.
Proof.
  unfold inf_of_sign. destruct (Rlt_dec 0 a); [reflexivity |].
  destruct (Rlt_dec a 0); reflexivity.
Qed.

Lemma x_sqrt_fin (a : R) : 0 <= a -> x_sqrt (Fin a) = Fin (sqrt a).
Proof. intros H. simpl. destruct (Rlt_dec a 0); [lra | reflexivity]. Qed.

(** ** It obeys the laws *)

Lemma exact_nan_laws : nan_laws exact.
Proof.
  constructor; try reflexivity; intros x; destruct x; reflexivity.
Qed.

Lemma exact_zero_laws : zero_laws exact.
Proof.
  constructor; cbn [num f_zero f_one f_nan f_add f_mul f_div f_eqb f_ltb
                    f_finite exact].
  - apply x_eqb_true. reflexivity.
  - apply x_add_0_r.
  - intros x y _. apply x_add_0_r.
  - intros x y Hx Hy. apply x_eqb_zero in Hx, Hy. subst.
    simpl. destruct (Req_dec_T (0 + 0) 0); [reflexivity | lra].
  - intros x y Hx. apply x_eqb_zero in Hx. subst.
    destruct y as [b | | |]; simpl.
    + left. destruct (Req_dec_T (0 * b) 0); [reflexivity | lra].
    + right. apply inf_of_sign_0.
    + right. replace (- 0) with 0 by lra. apply inf_of_sign_0.
    + right. reflexivity.
  - intros x Hx. apply x_eqb_zero in Hx. subst. apply x_ltb_false. lra.
  - intros x t Hx Ht. apply x_eqb_zero in Hx, Ht. subst. apply x_div_0_0.
  - intros x t Ht. apply x_eqb_zero in Ht. subst.
    destruct x as [a | | |]; simpl.
    + destruct (Req_dec_T 0 0); [| contradiction].
      apply inf_of_sign_not_finite.
    + destruct (Rlt_dec 0 0); reflexivity.
    + destruct (Rlt_dec 0 0); reflexivity.
    + reflexivity.
Qed.



Lemma x_nonneg (x : xreal) :
  x_leb (Fin 0) x = true -> (exists a, x = Fin a /\ 0 <= a) \/ x = PInf.
Proof.
  destruct x as [a | | |]; simpl; try discriminate.
  - destruct (Rle_dec 0 a); [| discriminate]. intros _. left. exists a.
    split; trivial.
  - intros _. right. reflexivity.
Qed.

Lemma exact_order_laws : order_laws exact.
Proof.
  constructor; cbn [num f_zero f_one f_nan f_add f_mul f_div f_eqb f_ltb
                    f_leb f_finite exact].
  - apply x_leb_true. lra.
  - intros x y z Hxy Hyz.
    destruct x as [a | | |], y as [b | | |], z as [c | | |];
      simpl in *; try discriminate; try reflexivity.
    destruct (Rle_dec a b); [| discriminate].
    destruct (Rle_dec b c); [| discriminate].
    destruct (Rle_dec a c); [reflexivity | lra].
  - intros s x Hs Hx.
    destruct (x_nonneg s Hs) as [(a & -> & Ha) | ->];
      destruct (x_nonneg x Hx) as [(b & -> & Hb) | ->]; simpl;
      try (split; reflexivity).
    split; apply x_leb_true; lra.
  - intros x H0 Hx. destruct x as [a | | |]; simpl in *; try discriminate.
    destruct (Rle_dec 0 a); [| discriminate].
    destruct (Rle_dec a 0); [| discriminate].
    destruct (Req_dec_T a 0); [reflexivity | lra].
  - intros x Hx. apply x_eqb_zero in Hx. subst. apply x_leb_true. lra.
  - intros x H0 Hx. destruct x as [a | | |]; simpl in *; try discriminate.
    + destruct (Rle_dec 0 a); [| discriminate].
      destruct (Req_dec_T a 0); [discriminate |].
      destruct (Rlt_dec 0 a); [reflexivity | lra].
    + reflexivity.
  - intros x t H0 Hf Hxt Ht.
    destruct x as [a | | |]; simpl in Hf; try discriminate.
    apply x_leb_fin in H0.
    destruct t as [b | | |]; simpl in Ht; try discriminate.
    + apply x_leb_fin in Hxt. apply x_ltb_fin in Ht.
      rewrite x_div_fin by lra.
      assert (Hi : 0 < / b) by (apply Rinv_0_lt_compat; exact Ht).
      split; apply x_leb_true.
      * unfold Rdiv. apply Rmult_le_pos; lra.
      * apply Rmult_le_reg_r with (r := b); [exact Ht |].
        unfold Rdiv. rewrite Rmult_assoc, Rinv_l by lra. lra.
    + simpl. split; apply x_leb_true; lra.
Qed.

Lemma exact_sum_laws : sum_laws exact.
Proof.
  constructor; cbn [f_sum exact].
  - intros v Hin.
    apply (fold_add_in_nan exact v (Fin 0) exact_nan_laws Hin).
  - intros v Hv.
    apply (fold_add_zero_or_nan exact v (Fin 0) exact_nan_laws
             exact_zero_laws); [| exact Hv].
    left. apply (eqb_zero_zero exact exact_zero_laws).
  - intros w k q Hw Hk.
    pose proof (fold_add_single exact w k q (x_add_0_r _) (x_add_0_l _)
                  (x_add_0_r _)) as H.
    destruct (Nat.ltb_spec k q); [exact H | lia].
  - intros v Hv.
    destruct (fold_add_bounds exact v (Fin 0) exact_order_laws
                (leb_zero_zero exact exact_order_laws) Hv) as [Ha Hb].
    split; [apply Ha; apply (leb_zero_zero exact exact_order_laws) | exact Hb].
Qed.

(** ** Evaluation on sample inputs *)

Lemma np_sum_exact (v : list xreal) :
  np_sum v = fold_left (f_add exact) v (Fin 0).
Proof. reflexivity. Qed.

Lemma fl_add_fin (a b : R) : f_add exact (Fin a) (Fin b) = Fin (a + b).
Proof. reflexivity. Qed.

Lemma fl_sub_fin (a b : R) : f_sub exact (Fin a) (Fin b) = Fin (a - b).
Proof. reflexivity. Qed.

Lemma fl_mul_fin (a b : R) : f_mul exact (Fin a) (Fin b) = Fin (a * b).
Proof. reflexivity. Qed.

Lemma fl_div_fin (a b : R) :
  b <> 0 -> f_div exact (Fin a) (Fin b) = Fin (a / b).
Proof. apply x_div_fin. Qed.

Lemma fl_pow2_fin (a : R) : fl_pow2 (A:=exact) (Fin a) = Fin (a * a).
Proof. reflexivity. Qed.

Lemma fl_sqrt_fin (a : R) :
  0 <= a -> fl_sqrt (A:=exact) (Fin a) = Fin (sqrt a).
Proof. apply x_sqrt_fin. Qed.

Lemma fl_ne0_fin (a : R) : a <> 0 -> fl_ne0 (A:=exact) (Fin a) = true.
Proof.
  intros H. unfold fl_ne0. cbn [f_eqb f_zero exact].
  rewrite x_eqb_false by exact H. reflexivity.
Qed.

Lemma fl_ne0_fin_zero (a : R) : a = 0 -> fl_ne0 (A:=exact) (Fin a) = false.
Proof.
  intros H. unfold fl_ne0. cbn [f_eqb f_zero exact].
  rewrite x_eqb_true by exact H. reflexivity.
Qed.

Lemma fl_gt1_fin (a : R) : 1 < a -> fl_gt1 (A:=exact) (Fin a) = true.
Proof. intros H. unfold fl_gt1. apply x_ltb_true. exact H. Qed.

Lemma fl_gt1_fin_le (a : R) : a <= 1 -> fl_gt1 (A:=exact) (Fin a) = false.
Proof. intros H. unfold fl_gt1. apply x_ltb_false. exact H. Qed.

Ltac fl_step :=
  first
    [ rewrite fl_add_fin | rewrite fl_sub_fin | rewrite fl_mul_fin
    | rewrite fl_pow2_fin
    | rewrite fl_div_fin by lra
    | rewrite fl_ne0_fin by lra | rewrite fl_ne0_fin_zero by lra
    | rewrite fl_gt1_fin by lra | rewrite fl_gt1_fin_le by lra
    | rewrite fl_sqrt_fin by lra
    | rewrite (mul_nan_l exact exact_nan_laws)
    | rewrite (mul_nan_r exact exact_nan_laws)
    | rewrite (add_nan_l exact exact_nan_laws)
    | rewrite (add_nan_r exact exact_nan_laws)
    | rewrite (sub_nan_l exact exact_nan_laws)
    | rewrite (sub_nan_r exact exact_nan_laws)
    | rewrite (div_nan_l exact exact_nan_laws)
    | rewrite (div_nan_r exact exact_nan_laws)
    | rewrite (sqrt_nan exact exact_nan_laws) ].

Ltac unfold_spec :=
  cbv [spec_se_P spec_se_U var_P_last_total var_P_row_totals var_P spec_P
       spec_U spec_overall spec_overall_variance spec_se_prop
       spec_se_prop_zero se_term area_matrix area_row calculate_weights
       col_total row_total column cell big_sum others sampled
       range seq filter map nth length
       of_counts of_reals Nat.eqb negb Nat.sub];
  rewrite ?np_sum_exact;
  cbv [fold_left];
  change (f_zero exact) with (Fin 0);
  change (f_one exact) with (Fin 1);
  change (f_two exact) with (Fin 2);
  change (f_nan exact) with NaN.

Ltac fl_eval := unfold_spec; repeat (fl_step; cbv beta iota).

(** * The properties on sample inputs *)

(** ** In exact arithmetic *)

Lemma example_shapes :
  shape 2 2 example_area /\ shape 2 2 example_error_matrix
  /\ length example_weights = 2%nat.
Proof.
  assert (He : shape 2 2 example_error_matrix)
    by (split; [reflexivity | repeat constructor]).
  split; [apply area_matrix_shape; exact He |].
  split; [exact He | reflexivity].
Qed.

Lemma even_shapes :
  shape 2 2 even_area /\ shape 2 2 small_error_matrix
  /\ length even_weights = 2%nat.
Proof. repeat split; repeat constructor. Qed.

Lemma even_area_converted :
  convert_to_area_proportion small_error_matrix even_weights
  = Some even_area.
Proof.
  rewrite convert_closed_form by reflexivity. f_equal.
  unfold small_error_matrix, even_weights, even_area. fl_eval.
  repeat (f_equal; try lra).
Qed.

Lemma small_column_total : fl_gt1 (col_total small_error_matrix 1) = true.
Proof. unfold small_error_matrix. fl_eval. reflexivity. Qed.

Lemma even_var_last_total :
  var_P_last_total even_area small_error_matrix 2 1 = Fin (1 / 900).
Proof. unfold small_error_matrix, even_area. fl_eval. f_equal. lra. Qed.

Lemma even_var_row_totals :
  var_P_row_totals even_area small_error_matrix 2 1 = Fin (1 / 225).
Proof. unfold small_error_matrix, even_area. fl_eval. f_equal. lra. Qed.

Lemma producer_variance_formula_witness :
  exists m,
    calculate_accuracy_metrics example_ppf even_area small_error_matrix
      even_weights example_level = Some m
    /\ nth_error (m_producer_accuracy_se m) 1 = Some (Fin (sqrt (1 / 900))).
Proof.
  destruct even_shapes as (Ha & He & Hw).
  destruct (producer_variance_formula exact example_ppf 2 even_area
              small_error_matrix even_weights example_level 1 Ha He Hw)
    as (m & Hm & _ & Hse).
  - lia.
  - exact small_column_total.
  - exists m. split; [exact Hm |]. rewrite Hse.
    change (var_P even_area small_error_matrix 2
              (fun _ => row_total small_error_matrix (2 - 1)) 1)
      with (var_P_last_total even_area small_error_matrix 2 1).
    rewrite even_var_last_total, fl_sqrt_fin by lra. reflexivity.
Defined.

(** C1 fails as stated: on the error matrix [[1, 1], [0, 4]] with weights
    [1/2, 1/2], class 1 has [n_{.1} = 5 > 1]; the formula with the row total
    of the contributing row inside the sum gives the variance 1/225, and
    the standard error the program reports is the square root of 1/900. *)
Lemma producer_variance_row_totals_refuted :
  exists m,
    convert_to_area_proportion small_error_matrix even_weights
    = Some even_area
    /\ calculate_accuracy_metrics example_ppf even_area small_error_matrix
         even_weights example_level = Some m
    /\ fl_gt1 (col_total small_error_matrix 1) = true
    /\ var_P_row_totals even_area small_error_matrix 2 1 = Fin (1 / 225)
    /\ nth_error (m_producer_accuracy_se m) 1 = Some (Fin (sqrt (1 / 900)))
    /\ nth_error (m_producer_accuracy_se m) 1
       <> Some (fl_sqrt (var_P_row_totals even_area small_error_matrix 2 1)).
Proof.
  destruct even_shapes as (Ha & He & Hw).
  eexists. split; [exact even_area_converted |].
  split; [apply (accuracy_closed_form exact example_ppf 2); assumption |].
  split; [exact small_column_total |].
  split; [exact even_var_row_totals |].
  unfold spec_metrics, producer_state.
  cbn [m_producer_accuracy_se producer_accuracy_se].
  rewrite nth_error_map_range by lia.
  unfold spec_se_P. rewrite small_column_total.
  rewrite even_var_last_total, even_var_row_totals.
  rewrite !fl_sqrt_fin by lra.
  split; [reflexivity |].
  intros H. injection H as H. apply sqrt_inj in H; lra.
Qed.

Lemma producer_variance_reads_leftover_witness :
  exists s1 s',
    for_each (range 2)
      (user_body even_area small_error_matrix (Fin (196 / 100))) init_locals
    = Some s1
    /\ U_i s1 = Some (spec_U even_area 1)
    /\ n_i_dot s1 = Some (row_total small_error_matrix 1)
    /\ producer_body even_area small_error_matrix 2 (Fin (196 / 100)) s1 1
       = Some s'
    /\ variance_P_j s' = Some (Fin (1 / 900)).
Proof.
  destruct even_shapes as (Ha & He & _).
  destruct (producer_variance_reads_leftover exact (Fin (196 / 100)) 2
              even_area small_error_matrix Ha He)
    as (s1 & Hs & HU & Hn & Hround).
  - lia.
  - destruct (Hround s1 1%nat) as (s' & Hb & _ & _ & Hv).
    + lia.
    + reflexivity.
    + reflexivity.
    + exact small_column_total.
    + exists s1, s'. repeat split; try assumption.
      rewrite Hv. f_equal. exact even_var_last_total.
Defined.

Lemma overall_accuracy_trace_and_variance_witness :
  exists m,
    calculate_accuracy_metrics example_ppf example_area example_error_matrix
      example_weights example_level = Some m
    /\ m_overall_accuracy m
       = np_sum (map (fun i => cell example_area i i) (range 2)).
Proof.
  destruct example_shapes as (Ha & He & Hw).
  destruct (overall_accuracy_trace_and_variance exact example_ppf 2
              example_area example_error_matrix example_weights example_level
              Ha He Hw)
    as (m & Hm & _ & Ht & _).
  exists m. split; [exact Hm | exact Ht].
Defined.

Lemma area_standard_errors_formula_witness :
  exists u,
    calculate_standard_error_and_ci example_ppf example_error_matrix
      example_weights
      (calculate_error_adjusted_area example_area (Fin 900000))
      (Fin 900000) example_level = Some u
    /\ nth_error (standard_errors u) 0
       = Some (Fin 900000
               * spec_se_prop example_error_matrix example_weights 2 0)%fl.
Proof.
  destruct example_shapes as (Ha & He & Hw).
  destruct (area_standard_errors_formula exact example_ppf 2
              example_error_matrix example_weights
              (calculate_error_adjusted_area example_area (Fin 900000))
              (Fin 900000) example_level exact_zero_laws He Hw)
    as (u & Hu & Hse).
  - apply (adjusted_area_length exact 2 2); [exact Ha | lia].
  - exists u. split; [exact Hu |]. apply (Hse 0%nat). lia.
Defined.





Lemma overall_variance_over_sampled_classes_witness :
  exists areaProp m,
    convert_to_area_proportion small_error_matrix even_weights
    = Some areaProp
    /\ calculate_accuracy_metrics example_ppf areaProp small_error_matrix
         even_weights example_level = Some m
    /\ m_overall_accuracy_variance m
       = big_sum
           (filter (fun i => fl_gt1 (row_total small_error_matrix i))
              (range 2))
           (fun i =>
              fl_pow2 (nth i even_weights NaN) * nth i (m_user_accuracy m) NaN
              * (Fin 1 - nth i (m_user_accuracy m) NaN)
              / (row_total small_error_matrix i - Fin 1))%fl.
Proof.
  destruct even_shapes as (_ & He & Hw).
  destruct (overall_variance_over_sampled_classes exact example_ppf 2
              small_error_matrix even_weights example_level exact_nan_laws
              exact_zero_laws exact_sum_laws He Hw)
    as (a & m & Ha & Hm & Hv & _).
  exists a, m. repeat split; assumption.
Defined.



Lemma accuracy_lists_lengths_witness :
  exists m,
    calculate_accuracy_metrics example_ppf example_area example_error_matrix
      example_weights example_level = Some m
    /\ length (m_user_accuracy m) = 2%nat
    /\ length (m_producer_accuracy_se m) = 2%nat.
Proof.
  destruct example_shapes as (Ha & He & Hw).
  destruct (accuracy_lists_lengths exact example_ppf 2 example_area
              example_error_matrix example_weights example_level Ha He Hw)
    as (m & Hm & H1 & _ & _ & _ & _ & _ & H7 & _).
  exists m. repeat split; assumption.
Defined.

Lemma accuracy_intervals_from_se_witness :
  exists m,
    calculate_accuracy_metrics example_ppf example_area example_error_matrix
      example_weights example_level = Some m
    /\ m_overall_accuracy_ci_value m
       = (Fin (196 / 100) * m_overall_accuracy_se m)%fl.
Proof.
  destruct example_shapes as (Ha & He & Hw).
  destruct (accuracy_intervals_from_se exact example_ppf 2 example_area
              example_error_matrix example_weights example_level
              exact_nan_laws Ha He Hw)
    as (m & Hm & _ & _ & Hci & _).
  exists m. split; [exact Hm | exact Hci].
Defined.

Lemma user_accuracy_and_se_witness :
  exists m,
    calculate_accuracy_metrics example_ppf example_area example_error_matrix
      example_weights example_level = Some m
    /\ nth_error (m_user_accuracy m) 0 = Some (spec_U example_area 0).
Proof.
  destruct example_shapes as (Ha & He & Hw).
  destruct (user_accuracy_and_se exact example_ppf 2 example_area
              example_error_matrix example_weights example_level Ha He Hw)
    as (m & Hm & Hu).
  exists m. split; [exact Hm |]. apply (Hu 0%nat). lia.
Defined.

Lemma producer_accuracy_and_undefined_se_witness :
  exists m,
    calculate_accuracy_metrics example_ppf left_area left_error_matrix
      even_weights example_level = Some m
    /\ nth_error (m_producer_accuracy m) 1 = Some NaN
    /\ nth_error (m_producer_accuracy_se m) 1 = Some NaN.
Proof.
  destruct (producer_accuracy_and_undefined_se exact example_ppf 2
              left_area left_error_matrix even_weights example_level)
    as (m & Hm & Hp).
  - split; [reflexivity | repeat constructor].
  - split; [reflexivity | repeat constructor].
  - reflexivity.
  - exists m. split; [exact Hm |].
    destruct (Hp 1%nat) as (HP & Hse); [lia |].
    split.
    + rewrite HP. f_equal. unfold left_area. fl_eval. reflexivity.
    + apply Hse. unfold left_error_matrix. fl_eval. reflexivity.
Defined.

Lemma empty_row_spreads_witness :
  exists areaProp m,
    convert_to_area_proportion empty_row_error_matrix uneven_weights
    = Some areaProp
    /\ calculate_accuracy_metrics example_ppf areaProp
         empty_row_error_matrix uneven_weights example_level = Some m
    /\ m_overall_accuracy m = NaN
    /\ nth_error (m_producer_accuracy m) 1 = Some NaN
    /\ nth_error (calculate_error_adjusted_area areaProp (Fin 900000)) 1
       = Some NaN.
Proof.
  destruct (empty_row_spreads exact example_ppf 2 empty_row_error_matrix
              uneven_weights example_level (Fin 900000) 0 exact_nan_laws
              exact_zero_laws exact_sum_laws)
    as (a & m & Hc & Hm & _ & _ & _ & Ho & Hall).
  - split; [reflexivity | repeat constructor].
  - reflexivity.
  - lia.
  - unfold empty_row_error_matrix. fl_eval. reflexivity.
  - exists a, m. destruct (Hall 1%nat) as [HP HA]; [lia |].
    repeat split; assumption.
Defined.

Lemma user_accuracy_bounds_witness :
  exists m U,
    calculate_accuracy_metrics example_ppf even_area small_error_matrix
      even_weights example_level = Some m
    /\ nth_error (m_user_accuracy m) 0 = Some U
    /\ f_leb exact (Fin 0) U = true /\ f_leb exact U (Fin 1) = true.
Proof.
  destruct even_shapes as (Ha & He & Hw).
  destruct (user_accuracy_bounds exact example_ppf 2 even_area
              small_error_matrix even_weights example_level 0
              exact_order_laws exact_sum_laws Ha He Hw)
    as (m & U & Hm & HU & _ & Hb).
  - lia.
  - repeat constructor; apply x_leb_true; lra.
  - exists m, U. split; [exact Hm |]. split; [exact HU |].
    apply Hb. unfold even_area. fl_eval. reflexivity.
Defined.

Lemma weights_between_0_and_1_witness :
  exists w,
    nth_error (calculate_weights example_mapped_pixels) 1 = Some w
    /\ f_leb exact (Fin 0) w = true /\ f_leb exact w (Fin 1) = true.
Proof.
  apply (weights_between_0_and_1 exact example_mapped_pixels 1
           exact_order_laws exact_sum_laws).
  - repeat constructor; apply x_leb_true; lra.
  - unfold example_mapped_pixels. fl_eval. apply x_ltb_true. lra.
  - simpl. lia.
Defined.

Lemma accuracy_raises_on_short_error_matrix_witness :
  calculate_accuracy_metrics example_ppf even_area (of_counts [[1; 1]])
    even_weights example_level = None.
Proof.
  apply (accuracy_raises_on_short_error_matrix exact example_ppf 2).
  - split; [reflexivity | repeat constructor].
  - simpl. lia.
Defined.

Lemma setup_gives_square_form_witness :
  exists f,
    setup_matrix_inputs (fun _ => Some 3%Z) "3" = Some f
    /\ form_shape 3 f.
Proof.
  apply (setup_gives_square_form (fun _ => Some 3%Z) "3" 3).
  - reflexivity.
  - lia.
Defined.

Lemma example_form_shape : form_shape 2 example_form.
Proof. repeat split; repeat constructor. Qed.

Lemma example_form_readable : readable example_float example_form.
Proof.
  repeat split; repeat constructor; unfold accepted; simpl; discriminate.
Qed.

Lemma example_form_square : ~ pixel_overflows example_float example_form.
Proof. unfold pixel_overflows. simpl. discriminate. Qed.

Lemma run_analysis_fails_iff_witness :
  run_analysis example_float example_ppf example_form <> None.
Proof.
  intros H.
  apply (run_analysis_fails_iff exact example_float example_ppf 2
           example_form example_form_shape) in H.
  destruct example_form_readable as (Hp & He & Hm).
  destruct H as [H | [H | [H | H]]].
  - exact (Hp H).
  - apply Exists_exists in H. destruct H as (es & Hes & H).
    apply Exists_exists in H. destruct H as (e & Hin & H).
    rewrite Forall_forall in He. specialize (He es Hes).
    rewrite Forall_forall in He. exact (He e Hin H).
  - apply Exists_exists in H. destruct H as (e & Hin & H).
    rewrite Forall_forall in Hm. exact (Hm e Hin H).
  - exact (example_form_square H).
Defined.


Lemma result_data_columns_witness :
  exists a,
    run_analysis example_float example_ppf example_form = Some a
    /\ length (result_data example_form a) = 13%nat
    /\ Forall (fun column => length (snd column) = 2%nat)
         (result_data example_form a).
Proof.
  destruct (result_data_columns exact example_float example_ppf 2
              example_form example_form_shape example_form_readable
              example_form_square)
    as (a & Ha & Hl & Hc & _).
  exists a. repeat split; assumption.
Defined.

(** ** In binary64 arithmetic *)

(** The producer's standard error in binary64: for the error matrix
    [[1, 1], [0, 4]] and a map of two classes of one pixel each, the
    reported standard error of the second class is the square root of the
    variance with the row total of the last class, 0.0333..., half the
    square root of the variance with the row total of each contributing
    row, 0.0666.... *)
Lemma producer_se_binary64 :
  exists areaProp m se,
    area_of pair_error_matrix even_pixels = Some areaProp
    /\ metrics_of pair_error_matrix even_pixels = Some m
    /\ nth_error (m_producer_accuracy_se m) 1 = Some se
    /\ se = fl_sqrt (var_P_last_total areaProp pair_error_matrix 2 1)
    /\ PrimFloat.ltb se
         (fl_sqrt (var_P_row_totals areaProp pair_error_matrix 2 1)) = true.
Proof.
  eexists. eexists. eexists.
  split; [vm_compute; reflexivity |].
  split; [vm_compute; reflexivity |].
  split; [vm_compute; reflexivity |].
  split; vm_compute; reflexivity.
Qed.





(** C2 fails as stated: for the error matrix [[1, 1], [0, 4]] and a map
    whose first class has no pixel, the weight of the first class is 0 and
    its row holds 2 samples; its user's accuracy is [nan], nothing is
    raised, and the variance, the standard error and the half-width of the
    overall accuracy are [nan]. *)
Lemma overall_variance_nan_on_zero_weight :
  exists m,
    metrics_of pair_error_matrix unmapped_pixels = Some m
    /\ nth_error (weights_of unmapped_pixels) 0 = Some 0%float
    /\ PrimFloat.ltb 1 (row_total pair_error_matrix 0) = true
    /\ nth_error (m_user_accuracy m) 0 = Some PrimFloat.nan
    /\ m_overall_accuracy_variance m = PrimFloat.nan
    /\ m_overall_accuracy_se m = PrimFloat.nan
    /\ m_overall_accuracy_ci_value m = PrimFloat.nan.
Proof.
  eexists. repeat split; vm_compute; reflexivity.
Qed.


(** The laws of [nan] hold of every binary64 number, by the specification
    of the primitive operations. *)
Lemma float_is_nan (x : float) :
  FloatOps.Prim2SF x = SpecFloat.S754_nan -> x = PrimFloat.nan.
Proof. intros H. apply FloatAxioms.Prim2SF_inj. rewrite H. reflexivity. Qed.

Lemma float64_nan_laws : nan_laws float64.
Proof.
  constructor; cbn [f_add f_sub f_mul f_div f_nan f_eqb f_ltb float64];
    try reflexivity; intros x.
  - apply float_is_nan. rewrite FloatAxioms.add_spec. reflexivity.
  - apply float_is_nan. rewrite FloatAxioms.add_spec.
    destruct (FloatOps.Prim2SF x); reflexivity.
  - apply float_is_nan. rewrite FloatAxioms.sub_spec. reflexivity.
  - apply float_is_nan. rewrite FloatAxioms.sub_spec.
    destruct (FloatOps.Prim2SF x); reflexivity.
  - apply float_is_nan. rewrite FloatAxioms.mul_spec. reflexivity.
  - apply float_is_nan. rewrite FloatAxioms.mul_spec.
    destruct (FloatOps.Prim2SF x); reflexivity.
  - apply float_is_nan. rewrite FloatAxioms.div_spec. reflexivity.
  - apply float_is_nan. rewrite FloatAxioms.div_spec.
    destruct (FloatOps.Prim2SF x); reflexivity.
  - rewrite FloatAxioms.eqb_spec. reflexivity.
  - rewrite FloatAxioms.ltb_spec.
    destruct (FloatOps.Prim2SF x); reflexivity.
Qed.

(** The laws of the arithmetic hold on the sample binary64 numbers, which
    include the zeros, the smallest and the largest positive numbers, the
    neighbours of 1, the infinities and [nan]. *)
Lemma float64_laws_on_samples :
  check_nan_laws law_samples = true
  /\ check_zero_laws law_samples = true
  /\ check_unit_laws law_samples = true
  /\ check_order_laws law_samples = true.
Proof. repeat split; vm_compute; reflexivity. Qed.
